(** * Authentication core of hamsoya-fullstack

    A shallow embedding of the authentication procedures of
    [src/features/auth/server/router.ts] together with the helpers they call
    ([src/utils/auth-utils.ts], [src/lib/crypto.ts],
    [src/utils/send-verification-otp.ts],
    [src/utils/send-password-reset-otp.ts]).

    The procedures run in a small state-and-error monad over a [World] made
    of the relational store (users, refresh_tokens), the Redis-backed OTP
    vault and the outgoing notifications.  Time is [Date.now()], in
    milliseconds, passed to each procedure; random values
    ([randomBytes], [randomUUID], [generateRefreshToken]) are inputs too. *)

From Stdlib Require Import String Ascii List ZArith Bool Lia.
Import ListNotations.

Open Scope Z_scope.

(** ** Errors *)

(** TRPC error codes used by the router.  A plain [throw new Error(...)]
    from a helper reaches the client as [INTERNAL_SERVER_ERROR]. *)
Inductive code :=
| CONFLICT
| NOT_FOUND
| UNAUTHORIZED
| TOO_MANY_REQUESTS
| INTERNAL_SERVER_ERROR.

Record TRPCError := mkTRPCError { err_code : code; err_message : string }.

(** ** Small string helpers (JavaScript [String] methods) *)

Fixpoint split_aux (c : ascii) (s : string) (cur : string) : list string :=
  match s with
  | EmptyString => [cur]
  | String x r =>
      if Ascii.eqb x c then cur :: split_aux c r EmptyString
      else split_aux c r (cur ++ String x EmptyString)
  end.

(** [s.split(c)] for a one-character separator. *)
Definition split (c : ascii) (s : string) : list string := split_aux c s EmptyString.

Definition is_ws (a : ascii) : bool :=
  match nat_of_ascii a with
  | 32%nat | 9%nat | 10%nat | 11%nat | 12%nat | 13%nat => true
  | _ => false
  end.

Fixpoint drop_ws (l : list ascii) : list ascii :=
  match l with
  | x :: r => if is_ws x then drop_ws r else l
  | [] => []
  end.

(** [s.trim()] on ASCII whitespace. *)
Definition trim (s : string) : string :=
  string_of_list_ascii
    (rev (drop_ws (rev (drop_ws (list_ascii_of_string s))))).

(** [s.startsWith(p)]. *)
Definition startsWith (s p : string) : bool := String.prefix p s.

Fixpoint digits_aux (fuel : nat) (n : Z) (acc : string) : string :=
  match fuel with
  | O => acc
  | S f =>
      let acc' := String (ascii_of_nat (48 + Z.to_nat (n mod 10))%nat) acc in
      if n <? 10 then acc' else digits_aux f (n / 10) acc'
  end.

(** [n.toString()] for an integer-valued number. *)
Definition toString (n : Z) : string :=
  if n <? 0 then ("-" ++ digits_aux 20 (- n) EmptyString)%string
  else digits_aux 20 n EmptyString.

(** JavaScript truthiness of a [string | null | undefined]. *)
Definition truthy (o : option string) : bool :=
  match o with
  | Some s => negb (String.eqb s EmptyString)
  | None => false
  end.

(** ** Relational store: users and refresh_tokens (src/db/schema, drizzle) *)

Record UserRow := mkUser {
  u_id : string;
  u_name : string;
  u_email : string;
  u_password_hash : option string;
  u_role : string;
  u_phone_number : option string;
  u_profile_image_url : option string;
  u_is_verified : bool
}.

Record RefreshRow := mkRefresh {
  rt_userId : string;
  rt_tokenHash : string;
  rt_expiresAt : Z;
  rt_isRevoked : bool;
  rt_familyId : option string
}.

(** ** The OTP vault *)

(** The [purpose] ("type") argument of the [RedisService] methods. *)
Inductive purpose := otp | password_reset.

Definition purpose_eqb (p q : purpose) : bool :=
  match p, q with
  | otp, otp | password_reset, password_reset => true
  | _, _ => false
  end.

(** The state the vault keeps for one (email, purpose) key. *)
Record KeyState := mkKey {
  ks_otp : option string;          (** getOTP / getPasswordResetOTP *)
  ks_failCount : Z;                (** getOTPFailCount *)
  ks_attempts : Z;                 (** getAttempts *)
  ks_sendCount : Z;                (** getOTPSendCount *)
  ks_cooldownUntil : option Z;     (** setCooldown / checkCooldown *)
  ks_lockUntil : option Z;         (** setLock / checkLock *)
  ks_verified : bool               (** setPasswordResetVerified *)
}.

Definition emptyKey : KeyState := mkKey None 0 0 0 None None false.

(** Pending registration payload, as built by [register]. *)
Record RegistrationData := mkReg {
  rd_name : string;
  rd_email : string;
  rd_password_hash : string;
  rd_role : string;
  rd_phone_number : option string;
  rd_profile_image_url : option string
}.

Record World := mkWorld {
  vault : string -> purpose -> KeyState;
  regs : string -> option (RegistrationData * Z);   (** payload, expiry *)
  users : list UserRow;
  refreshTokens : list RefreshRow;
  outbox : list (string * string)                  (** (email, otp) sent *)
}.

Definition set_vault w v := mkWorld v (regs w) (users w) (refreshTokens w) (outbox w).
Definition set_regs w r := mkWorld (vault w) r (users w) (refreshTokens w) (outbox w).
Definition set_users w u := mkWorld (vault w) (regs w) u (refreshTokens w) (outbox w).
Definition set_refresh w t := mkWorld (vault w) (regs w) (users w) t (outbox w).
Definition set_outbox w o := mkWorld (vault w) (regs w) (users w) (refreshTokens w) o.

(** ** State-and-error monad: an [async] procedure that may [throw] *)

Inductive Res (A : Type) :=
| Ok (a : A)
| Err (e : TRPCError).
Arguments Ok {A} a.
Arguments Err {A} e.

Definition M (A : Type) := World -> Res A * World.

Definition ret {A} (a : A) : M A := fun w => (Ok a, w).

Definition bind {A B} (m : M A) (f : A -> M B) : M B :=
  fun w => match m w with
           | (Ok a, w') => f a w'
           | (Err e, w') => (Err e, w')
           end.

Definition throw {A} (c : code) (msg : string) : M A :=
  fun w => (Err (mkTRPCError c msg), w).

Definition gets {A} (f : World -> A) : M A := fun w => (Ok (f w), w).

Definition modify (f : World -> World) : M unit := fun w => (Ok tt, f w).

Notation "x <- m ;; k" := (bind m (fun x => k))
  (at level 61, m at next level, right associativity).
Notation "m ;;; k" := (bind m (fun _ => k))
  (at level 61, right associativity).

(** ** Collaborators: hashing, password hashing, token signing, config *)

(** [hashToken] is the SHA-256 hex digest of [auth-utils.ts]; [hashPassword]
    and [verifyPassword] are bcrypt (cost 12); [generateAccessToken userId now]
    is [jwt.sign({ userId }, JWT_SECRET, { expiresIn: "15m" })] at time [now];
    [isProd] is the flag of [src/lib/utils.ts]. *)
Class AuthEnv := {
  hashToken : string -> string;
  hashPassword : string -> string;
  verifyPassword : string -> string -> bool;
  generateAccessToken : string -> Z -> string;
  isProd : bool
}.

(** ** src/lib/crypto.ts: generateOTP *)

(** [randomNumber] is [randomBytes(4).readUint32BE(0)], a value in
    [0, 2^32). *)
Definition otp_number (randomNumber : Z) : Z := (randomNumber mod 900000) + 100000.

Definition generateOTP (randomNumber : Z) : string := toString (otp_number randomNumber).

(** ** The Redis service *)

(** Modelled from the spec: [RedisService] ([src/lib/redis.ts]) is not among
    the sources.  Following spec section 4.4, every field is scoped by the
    (email, purpose) key; [setLock email minutes] sets lock-until to now plus
    the given minutes; [setCooldown] starts a 60-second cooldown; [cleanup]
    clears everything for a key; pending registrations live 30 minutes;
    [setPasswordResetVerified] sets the reset-verified flag;
    [OTP_LIMITS.MAX_SEND_ATTEMPTS_PER_HOUR] is 5. *)
Definition REGISTRATION_TTL : Z := 30 * 60 * 1000.
Definition OTP_COOLDOWN : Z := 60 * 1000.
Definition MAX_SEND_ATTEMPTS_PER_HOUR : Z := 5.

Definition upd_key (v : string -> purpose -> KeyState) (e : string) (p : purpose)
  (f : KeyState -> KeyState) : string -> purpose -> KeyState :=
  fun e' p' => if String.eqb e' e && purpose_eqb p' p then f (v e' p') else v e' p'.

Definition getKey (email : string) (p : purpose) : M KeyState :=
  gets (fun w => vault w email p).

Definition updateKey (email : string) (p : purpose) (f : KeyState -> KeyState) : M unit :=
  modify (fun w => set_vault w (upd_key (vault w) email p f)).

Definition with_otp o k := mkKey o (ks_failCount k) (ks_attempts k) (ks_sendCount k)
  (ks_cooldownUntil k) (ks_lockUntil k) (ks_verified k).
Definition with_failCount n k := mkKey (ks_otp k) n (ks_attempts k) (ks_sendCount k)
  (ks_cooldownUntil k) (ks_lockUntil k) (ks_verified k).
Definition with_attempts n k := mkKey (ks_otp k) (ks_failCount k) n (ks_sendCount k)
  (ks_cooldownUntil k) (ks_lockUntil k) (ks_verified k).
Definition with_sendCount n k := mkKey (ks_otp k) (ks_failCount k) (ks_attempts k) n
  (ks_cooldownUntil k) (ks_lockUntil k) (ks_verified k).
Definition with_cooldown c k := mkKey (ks_otp k) (ks_failCount k) (ks_attempts k)
  (ks_sendCount k) c (ks_lockUntil k) (ks_verified k).
Definition with_lock l k := mkKey (ks_otp k) (ks_failCount k) (ks_attempts k)
  (ks_sendCount k) (ks_cooldownUntil k) l (ks_verified k).
Definition with_verified b k := mkKey (ks_otp k) (ks_failCount k) (ks_attempts k)
  (ks_sendCount k) (ks_cooldownUntil k) (ks_lockUntil k) b.

Definition getOTP (email : string) : M (option string) :=
  k <- getKey email otp ;; ret (ks_otp k).
Definition setOTP (email v : string) : M unit := updateKey email otp (with_otp (Some v)).
Definition getPasswordResetOTP (email : string) : M (option string) :=
  k <- getKey email password_reset ;; ret (ks_otp k).
Definition setPasswordResetOTP (email v : string) : M unit :=
  updateKey email password_reset (with_otp (Some v)).

Definition getOTPFailCount (email : string) : M Z :=
  k <- getKey email otp ;; ret (ks_failCount k).
Definition incrementOTPFailCount (email : string) : M Z :=
  updateKey email otp (fun k => with_failCount (ks_failCount k + 1) k) ;;;
  getOTPFailCount email.

Definition getAttempts (email : string) (p : purpose) : M Z :=
  k <- getKey email p ;; ret (ks_attempts k).
Definition incrementAttempts (email : string) (p : purpose) : M Z :=
  updateKey email p (fun k => with_attempts (ks_attempts k + 1) k) ;;;
  getAttempts email p.

Definition getOTPSendCount (email : string) : M Z :=
  k <- getKey email otp ;; ret (ks_sendCount k).
Definition incrementOTPSendCount (email : string) : M Z :=
  updateKey email otp (fun k => with_sendCount (ks_sendCount k + 1) k) ;;;
  getOTPSendCount email.

Definition setLock (email : string) (minutes : Z) (p : purpose) (now : Z) : M unit :=
  updateKey email p (with_lock (Some (now + minutes * 60 * 1000))).
Definition checkLock (email : string) (p : purpose) (now : Z) : M bool :=
  k <- getKey email p ;;
  ret (match ks_lockUntil k with Some t => now <? t | None => false end).

Definition setCooldown (email : string) (p : purpose) (now : Z) : M unit :=
  updateKey email p (with_cooldown (Some (now + OTP_COOLDOWN))).
Definition checkCooldown (email : string) (p : purpose) (now : Z) : M bool :=
  k <- getKey email p ;;
  ret (match ks_cooldownUntil k with Some t => now <? t | None => false end).
(** [RedisService] is not in the sources; the seconds left on the cooldown
    are taken here as the remaining milliseconds rounded up, a modelling
    choice.  The value only enters error message texts. *)
Definition getCooldownRemaining (email : string) (p : purpose) (now : Z) : M Z :=
  k <- getKey email p ;;
  ret (match ks_cooldownUntil k with
       | Some t => if now <? t then (t - now + 999) / 1000 else 0
       | None => 0
       end).

Definition cleanup (email : string) (p : purpose) : M unit :=
  updateKey email p (fun _ => emptyKey).

Definition setPasswordResetVerified (email : string) : M unit :=
  updateKey email password_reset (with_verified true).
Definition checkPasswordResetVerified (email : string) : M bool :=
  k <- getKey email password_reset ;; ret (ks_verified k).

Definition setRegistrationData (email : string) (d : RegistrationData) (now : Z) : M unit :=
  modify (fun w => set_regs w (fun e => if String.eqb e email
                                        then Some (d, now + REGISTRATION_TTL)
                                        else regs w e)).
Definition getRegistrationData (email : string) (now : Z) : M (option RegistrationData) :=
  gets (fun w => match regs w email with
                 | Some (d, exp) => if now <? exp then Some d else None
                 | None => None
                 end).
Definition deleteRegistrationData (email : string) : M unit :=
  modify (fun w => set_regs w (fun e => if String.eqb e email then None else regs w e)).

(** ** Notification sender (src/lib/sendEmail.ts): records the message sent *)

Definition sendEmail (email code_ : string) : M unit :=
  modify (fun w => set_outbox w (outbox w ++ [(email, code_)])).

(** ** Database queries (drizzle [select ... where ... limit(1)]) *)

Definition findUserByEmail (email : string) : M (option UserRow) :=
  gets (fun w => find (fun u => String.eqb (u_email u) email) (users w)).

Definition findUserById (id : string) : M (option UserRow) :=
  gets (fun w => find (fun u => String.eqb (u_id u) id) (users w)).

Definition insertUser (u : UserRow) : M unit :=
  modify (fun w => set_users w (users w ++ [u])).

(** The refresh procedure's query: a row with this digest, not revoked,
    [expiresAt > now]. *)
Definition validRow (tokenHash : string) (now : Z) (r : RefreshRow) : bool :=
  String.eqb (rt_tokenHash r) tokenHash && negb (rt_isRevoked r) && (now <? rt_expiresAt r).

Definition findValidRefresh (tokenHash : string) (now : Z) : M (option RefreshRow) :=
  gets (fun w => find (validRow tokenHash now) (refreshTokens w)).

(** The logout procedure's query: any row with this digest. *)
Definition findRefreshByHash (tokenHash : string) : M (option RefreshRow) :=
  gets (fun w => find (fun r => String.eqb (rt_tokenHash r) tokenHash) (refreshTokens w)).

(** ** Cookies *)

(** [cookies.split(";").find((c) => c.trim().startsWith("refreshToken="))] *)
Definition findRefreshTokenCookie (cookies : string) : option string :=
  find (fun c => startsWith (trim c) "refreshToken=") (split ";" cookies).

(** [refreshTokenCookie.split("=")[1]] *)
Definition cookieValue (c : string) : string := nth 1 (split "=" c) EmptyString.

(** [ctx.req.headers.get("cookie") || ""] *)
Definition cookieHeader (h : option string) : string :=
  match h with Some s => s | None => EmptyString end.

Definition REFRESH_COOKIE_MAX_AGE : Z := 30 * 24 * 60 * 60.

Section Procedures.
Context {env : AuthEnv}.

(** [lookupValid(rawToken)] of the ledger: digest the token and run the
    refresh procedure's query. *)
Definition lookupValid (w : World) (rawToken : string) (now : Z) : option RefreshRow :=
  find (validRow (hashToken rawToken) now) (refreshTokens w).

(** ** src/utils/auth-utils.ts *)

Definition REFRESH_TOKEN_EXPIRY : Z := 30 * 24 * 60 * 60.

(** [storeRefreshToken(userId, token, familyId?)]; [now] is [Date.now()]
    and [newUuid] is [crypto.randomUUID()]. *)
Definition storeRefreshToken (userId token : string) (familyId : option string)
  (now : Z) (newUuid : string) : M unit :=
  let tokenHash := hashToken token in
  let expiresAt := now + REFRESH_TOKEN_EXPIRY in
  let fam := match familyId with
             | Some f => if truthy familyId then f else newUuid
             | None => newUuid
             end in
  modify (fun w => set_refresh w (refreshTokens w ++
                     [mkRefresh userId tokenHash expiresAt false (Some fam)])).

Definition revoke_row (r : RefreshRow) : RefreshRow :=
  mkRefresh (rt_userId r) (rt_tokenHash r) (rt_expiresAt r) true (rt_familyId r).

Definition sameFamily (fam : string) (r : RefreshRow) : bool :=
  match rt_familyId r with Some f => String.eqb f fam | None => false end.

(** [revokeRefreshTokens(userId, familyId?)] *)
Definition revokeRefreshTokens (userId : string) (familyId : option string) : M unit :=
  match familyId with
  | Some fam =>
      if truthy familyId then
        modify (fun w => set_refresh w (map (fun r =>
          if String.eqb (rt_userId r) userId && sameFamily fam r then revoke_row r else r)
          (refreshTokens w)))
      else
        modify (fun w => set_refresh w (map (fun r =>
          if String.eqb (rt_userId r) userId then revoke_row r else r) (refreshTokens w)))
  | None =>
      modify (fun w => set_refresh w (map (fun r =>
        if String.eqb (rt_userId r) userId then revoke_row r else r) (refreshTokens w)))
  end.

(** [updatePassword(userId, newPassword)] *)
Definition updatePassword (userId newPassword : string) : M unit :=
  let hashed := hashPassword newPassword in
  modify (fun w => set_users w (map (fun u =>
    if String.eqb (u_id u) userId then
      mkUser (u_id u) (u_name u) (u_email u) (Some hashed) (u_role u)
             (u_phone_number u) (u_profile_image_url u) (u_is_verified u)
    else u) (users w))).

(** ** src/utils/send-verification-otp.ts *)

Definition checkOTPRateLimit (email : string) (type_ : purpose) (now : Z) : M unit :=
  inCooldown <- checkCooldown email type_ now ;;
  if inCooldown then
    throw INTERNAL_SERVER_ERROR "Please wait 60 seconds before requesting another OTP"
  else
  attempts <- getAttempts email type_ ;;
  if 2 <=? attempts then
    setLock email 60 type_ now ;;;
    throw INTERNAL_SERVER_ERROR "Too many OTP requests. Please try again in 1 hour."
  else
  isLocked <- checkLock email type_ now ;;
  if isLocked then
    throw INTERNAL_SERVER_ERROR "Account is temporarily locked. Please try again later."
  else
  incrementAttempts email type_ ;;;
  ret tt.

Definition sendVerificationOtp (email : string) (now randomNumber : Z) : M string :=
  registrationData <- getRegistrationData email now ;;
  user <- findUserByEmail email ;;
  match registrationData, user with
  | None, None => throw INTERNAL_SERVER_ERROR "No registration data or user found for this email"
  | _, _ =>
    if match user with Some u => u_is_verified u | None => false end then
      throw INTERNAL_SERVER_ERROR "User is already verified"
    else
    checkOTPRateLimit email otp now ;;;
    let code_ := generateOTP randomNumber in
    setOTP email code_ ;;;
    setCooldown email otp now ;;;
    sendEmail email code_ ;;;
    ret "Verification OTP sent to your email"%string
  end.

(** ** src/utils/send-password-reset-otp.ts *)

Definition checkPasswordResetRateLimit (email : string) (now : Z) : M unit :=
  inCooldown <- checkCooldown email password_reset now ;;
  if inCooldown then
    throw INTERNAL_SERVER_ERROR "Please wait 60 seconds before requesting another OTP"
  else
  attempts <- getAttempts email password_reset ;;
  if 2 <=? attempts then
    setLock email 60 password_reset now ;;;
    throw INTERNAL_SERVER_ERROR "Too many OTP requests. Please try again in 1 hour."
  else
  isLocked <- checkLock email password_reset now ;;
  if isLocked then
    throw INTERNAL_SERVER_ERROR "Account is temporarily locked. Please try again later."
  else
  incrementAttempts email password_reset ;;;
  ret tt.

Definition sendPasswordResetOtp (email : string) (now randomNumber : Z) : M string :=
  user <- findUserByEmail email ;;
  match user with
  | None => throw INTERNAL_SERVER_ERROR "No user found for this email"
  | Some _ =>
    checkPasswordResetRateLimit email now ;;;
    let code_ := generateOTP randomNumber in
    setPasswordResetOTP email code_ ;;;
    setCooldown email password_reset now ;;;
    sendEmail email code_ ;;;
    ret "Password reset OTP sent to your email"%string
  end.

(** ** src/features/auth/server/router.ts *)

Definition LOCK_MESSAGE : string :=
  "Too many incorrect attempts. Account locked for 15 minutes.".

Definition incorrectOtpMessage (remainingAttempts : Z) : string :=
  ("Incorrect OTP. " ++ toString remainingAttempts ++ " attempts remaining.")%string.

Definition GENERIC_RESET_ACK : string :=
  "If an account with that email exists, a reset link has been sent.".

Definition register (name email password role : string)
  (phone_number profile_image_url : option string) (now randomNumber : Z) : M string :=
  existingUser <- findUserByEmail email ;;
  match existingUser with
  | Some _ => throw CONFLICT "User already exists"
  | None =>
    let passwordHash := hashPassword password in
    let registrationData :=
      mkReg name email passwordHash role phone_number profile_image_url in
    setRegistrationData email registrationData now ;;;
    sendVerificationOtp email now randomNumber ;;;
    ret "Registration initiated. Please check your email for verification OTP."%string
  end.

(** [newId] is the [uuid().defaultRandom()] of the inserted row. *)
Definition verifyOTP (email otp_ : string) (now : Z) (newId : string) : M string :=
  failCount <- getOTPFailCount email ;;
  if 5 <=? failCount then throw TOO_MANY_REQUESTS LOCK_MESSAGE else
  storedOTP <- getOTP email ;;
  if negb (truthy storedOTP) then
    throw NOT_FOUND "OTP expired or not found. Please request a new one."
  else
  if negb (match storedOTP with Some s => String.eqb otp_ s | None => false end) then
    newFailCount <- incrementOTPFailCount email ;;
    let remainingAttempts := 5 - newFailCount in
    if remainingAttempts <=? 0 then
      setLock email 15 otp now ;;;
      cleanup email otp ;;;
      throw UNAUTHORIZED LOCK_MESSAGE
    else throw UNAUTHORIZED (incorrectOtpMessage remainingAttempts)
  else
  registrationData <- getRegistrationData email now ;;
  match registrationData with
  | None => throw NOT_FOUND "Registration data expired. Please register again."
  | Some d =>
    existingUser <- findUserByEmail email ;;
    match existingUser with
    | Some _ => throw CONFLICT "User already exists"
    | None =>
      insertUser (mkUser newId (rd_name d) (rd_email d) (Some (rd_password_hash d))
                    (rd_role d) (rd_phone_number d) (rd_profile_image_url d) true) ;;;
      cleanup email otp ;;;
      deleteRegistrationData email ;;;
      ret "Email verified successfully. Account created!"%string
    end
  end.

Definition resendOTP (email : string) (now randomNumber : Z) : M string :=
  registrationData <- getRegistrationData email now ;;
  match registrationData with
  | None => throw NOT_FOUND "No pending registration found for this email."
  | Some _ =>
    inCooldown <- checkCooldown email otp now ;;
    if inCooldown then
      remaining <- getCooldownRemaining email otp now ;;
      throw TOO_MANY_REQUESTS ("Please wait " ++ toString remaining
                               ++ " seconds before requesting another OTP.")%string
    else
    sendCount <- getOTPSendCount email ;;
    if MAX_SEND_ATTEMPTS_PER_HOUR <=? sendCount then
      throw TOO_MANY_REQUESTS "Maximum OTP requests exceeded for this hour."
    else
    sendVerificationOtp email now randomNumber ;;;
    setCooldown email otp now ;;;
    incrementOTPSendCount email ;;;
    ret "OTP resent successfully. Please check your email."%string
  end.

Definition loginCookie (refreshToken : string) : string :=
  String.concat "; " [("refreshToken=" ++ refreshToken)%string; "HttpOnly"; "Secure";
                      "SameSite=Strict"; ("Max-Age=" ++ toString REFRESH_COOKIE_MAX_AGE)%string;
                      "Path=/"]%string.

Definition refreshCookie (refreshToken : string) : string :=
  String.concat "; " [("refreshToken=" ++ refreshToken)%string; "HttpOnly";
                      if isProd then "Secure" else ""; "SameSite=Strict";
                      ("Max-Age=" ++ toString REFRESH_COOKIE_MAX_AGE)%string; "Path=/"]%string.

Definition clearedCookie : string :=
  String.concat "; " ["refreshToken="; "HttpOnly"; if isProd then "Secure" else "";
                      "SameSite=Strict"; "Max-Age=0"; "Path=/"]%string.

(** Returns (user, accessToken, set-cookie header).  [newRefreshToken] is
    [generateRefreshToken()], [newUuid] the family id drawn by
    [storeRefreshToken]. *)
Definition login (email password : string) (now : Z) (newRefreshToken newUuid : string)
  : M (UserRow * string * string) :=
  userResult <- findUserByEmail email ;;
  match userResult with
  | None => throw UNAUTHORIZED "Invalid email or password"
  | Some user =>
    if negb (u_is_verified user) then
      throw UNAUTHORIZED "Please verify your email before logging in"
    else
    match u_password_hash user with
    | None => throw INTERNAL_SERVER_ERROR "data and hash arguments required"
    | Some h =>
      if negb (verifyPassword password h) then
        throw UNAUTHORIZED "Invalid email or password"
      else
      let accessToken := generateAccessToken (u_id user) now in
      storeRefreshToken (u_id user) newRefreshToken None now newUuid ;;;
      ret (user, accessToken, loginCookie newRefreshToken)
    end
  end.

Definition forgotPassword (email : string) (now randomNumber : Z) : M string :=
  userResult <- findUserByEmail email ;;
  match userResult with
  | None => ret GENERIC_RESET_ACK
  | Some _ =>
    sendPasswordResetOtp email now randomNumber ;;;
    ret GENERIC_RESET_ACK
  end.

Definition verifyForgetPasswordOTP (email otp_ : string) (now : Z) : M string :=
  userResult <- findUserByEmail email ;;
  match userResult with
  | None => throw NOT_FOUND "No user found with this email"
  | Some _ =>
    failCount <- getAttempts email password_reset ;;
    if 5 <=? failCount then throw TOO_MANY_REQUESTS LOCK_MESSAGE else
    storedOTP <- getPasswordResetOTP email ;;
    if negb (truthy storedOTP) then
      throw NOT_FOUND "OTP expired or not found. Please request a new one."
    else
    if negb (match storedOTP with Some s => String.eqb otp_ s | None => false end) then
      newFailCount <- incrementAttempts email password_reset ;;
      let remainingAttempts := 5 - newFailCount in
      if remainingAttempts <=? 0 then
        setLock email 15 password_reset now ;;;
        cleanup email password_reset ;;;
        throw UNAUTHORIZED LOCK_MESSAGE
      else throw UNAUTHORIZED (incorrectOtpMessage remainingAttempts)
    else
    setPasswordResetVerified email ;;;
    ret "Password reset OTP verified successfully"%string
  end.

Definition resendPasswordResetOTP (email : string) (now randomNumber : Z) : M string :=
  userResult <- findUserByEmail email ;;
  match userResult with
  | None => throw NOT_FOUND "No user found with this email"
  | Some _ =>
    inCooldown <- checkCooldown email password_reset now ;;
    if inCooldown then
      remaining <- getCooldownRemaining email password_reset now ;;
      throw TOO_MANY_REQUESTS ("Please wait " ++ toString remaining
                               ++ " seconds before requesting another OTP.")%string
    else
    sendCount <- getAttempts email password_reset ;;
    if 2 <=? sendCount then
      throw TOO_MANY_REQUESTS "Maximum OTP requests exceeded. Please try again later."
    else
    sendPasswordResetOtp email now randomNumber ;;;
    setCooldown email password_reset now ;;;
    incrementAttempts email password_reset ;;;
    ret "Password reset OTP resent successfully. Please check your email."%string
  end.

Definition resetPassword (email newPassword : string) : M string :=
  isVerified <- checkPasswordResetVerified email ;;
  if negb isVerified then
    throw UNAUTHORIZED "Password reset not verified. Please verify the OTP first."
  else
  userResult <- findUserByEmail email ;;
  match userResult with
  | None => throw NOT_FOUND "User not found"
  | Some user =>
    updatePassword (u_id user) newPassword ;;;
    revokeRefreshTokens (u_id user) None ;;;
    cleanup email password_reset ;;;
    ret "Password reset successfully"%string
  end.

(** Returns (accessToken, user, set-cookie header).  [cookie] is the request's
    Cookie header. *)
Definition refreshToken (cookie : option string) (now : Z) (newRefreshToken newUuid : string)
  : M (string * UserRow * string) :=
  let cookies := cookieHeader cookie in
  match findRefreshTokenCookie cookies with
  | None => throw UNAUTHORIZED "No refresh token"
  | Some refreshTokenCookie =>
    let refreshToken := cookieValue refreshTokenCookie in
    let tokenHash := hashToken refreshToken in
    result <- findValidRefresh tokenHash now ;;
    match result with
    | None => throw UNAUTHORIZED "Invalid refresh token"
    | Some tokenRecord =>
      userResult <- findUserById (rt_userId tokenRecord) ;;
      match userResult with
      | None => throw UNAUTHORIZED "User not found"
      | Some user =>
        let newAccessToken := generateAccessToken (rt_userId tokenRecord) now in
        revokeRefreshTokens (rt_userId tokenRecord) (rt_familyId tokenRecord) ;;;
        storeRefreshToken (rt_userId tokenRecord) newRefreshToken
                          (rt_familyId tokenRecord) now newUuid ;;;
        ret (newAccessToken, user, refreshCookie newRefreshToken)
      end
    end
  end.

(** Returns (message, set-cookie header). *)
Definition logout (cookie : option string) : M (string * string) :=
  let cookies := cookieHeader cookie in
  (match findRefreshTokenCookie cookies with
   | Some refreshTokenCookie =>
     let refreshToken := cookieValue refreshTokenCookie in
     let tokenHash := hashToken refreshToken in
     result <- findRefreshByHash tokenHash ;;
     match result with
     | Some r => revokeRefreshTokens (rt_userId r) (rt_familyId r)
     | None => ret tt
     end
   | None => ret tt
   end) ;;;
  ret ("Logged out successfully"%string, clearedCookie).

(** ** One request to any mutating procedure of the router *)

Inductive Op :=
| OpRegister (name email password role : string) (phone image : option string) (now rnd : Z)
| OpVerifyOTP (email otp_ : string) (now : Z) (newId : string)
| OpResendOTP (email : string) (now rnd : Z)
| OpLogin (email password : string) (now : Z) (tok uuid : string)
| OpForgotPassword (email : string) (now rnd : Z)
| OpVerifyForgetPasswordOTP (email otp_ : string) (now : Z)
| OpResendPasswordResetOTP (email : string) (now rnd : Z)
| OpResetPassword (email newPassword : string)
| OpRefreshToken (cookie : option string) (now : Z) (tok uuid : string)
| OpLogout (cookie : option string).

Definition exec (op : Op) (w : World) : World :=
  match op with
  | OpRegister n e p r ph im now rnd => snd (register n e p r ph im now rnd w)
  | OpVerifyOTP e o now id => snd (verifyOTP e o now id w)
  | OpResendOTP e now rnd => snd (resendOTP e now rnd w)
  | OpLogin e p now t u => snd (login e p now t u w)
  | OpForgotPassword e now rnd => snd (forgotPassword e now rnd w)
  | OpVerifyForgetPasswordOTP e o now => snd (verifyForgetPasswordOTP e o now w)
  | OpResendPasswordResetOTP e now rnd => snd (resendPasswordResetOTP e now rnd w)
  | OpResetPassword e p => snd (resetPassword e p w)
  | OpRefreshToken c now t u => snd (refreshToken c now t u w)
  | OpLogout c => snd (logout c w)
  end.

End Procedures.

(** ** Distribution of [generateOTP] over its 32-bit random source *)

(** [preimages n v]: how many random values [r < n] give the OTP value [v]. *)
Fixpoint preimages (n : nat) (v : Z) : Z :=
  match n with
  | O => 0
  | S k => preimages k v + (if otp_number (Z.of_nat k) =? v then 1 else 0)
  end.

(** [sum_range f a m] = f a + f (a+1) + ... + f (a+m-1). *)
Fixpoint sum_range (f : Z -> Z) (a : Z) (m : nat) : Z :=
  match m with
  | O => 0
  | S m' => f a + sum_range f (a + 1) m'
  end.

Definition U32 : nat := Z.to_nat (2 ^ 32).

(** Uniformity of the OTP distribution: all 900000 values have as many
    preimages among the 2^32 random values as 100000 has. *)
Definition otp_uniform : Prop :=
  forall v, 100000 <= v <= 999999 -> preimages U32 v = preimages U32 100000.

(** ** A concrete environment and worlds, for evaluating the procedures *)

Definition demoEnv : AuthEnv := {|
  hashToken := fun s => ("sha256:" ++ s)%string;
  hashPassword := fun s => ("bcrypt:" ++ s)%string;
  verifyPassword := fun p h => String.eqb ("bcrypt:" ++ p)%string h;
  generateAccessToken := fun u _ => ("jwt:" ++ u)%string;
  isProd := true
|}.

Definition emptyWorld : World := mkWorld (fun _ _ => emptyKey) (fun _ => None) [] [] [].

Definition demoUser : UserRow :=
  mkUser "u1" "Ann" "a@x.com" (Some "bcrypt:Pw1!Pw1!"%string) "USER" None None true.

(** ** Observations used in the statements *)

Section Observations.
Context {env : AuthEnv}.

(** The refresh procedure finds no valid token: no refreshToken cookie, or
    its token has no non-revoked, unexpired row. *)
Definition refresh_miss (w : World) (cookie : option string) (now : Z) : Prop :=
  match findRefreshTokenCookie (cookieHeader cookie) with
  | None => True
  | Some c => lookupValid w (cookieValue c) now = None
  end.

End Observations.

Definition refresh_miss_message (cookie : option string) : string :=
  match findRefreshTokenCookie (cookieHeader cookie) with
  | None => "No refresh token"
  | Some _ => "Invalid refresh token"
  end.

(** Which rows [revokeRefreshTokens userId familyId] marks revoked. *)
Definition revokes (userId : string) (familyId : option string) (r : RefreshRow) : bool :=
  String.eqb (rt_userId r) userId &&
  match familyId with
  | Some fam => if truthy familyId then sameFamily fam r else true
  | None => true
  end.

Definition revoke_map (userId : string) (familyId : option string) (l : list RefreshRow) :=
  map (fun r => if revokes userId familyId r then revoke_row r else r) l.

(** Successive verify requests for one email, each with its candidate and
    time; the results in order and the final world. *)
Fixpoint verifyOTP_calls (email : string) (calls : list (string * Z * string)) (w : World)
  : list (Res string) * World :=
  match calls with
  | [] => ([], w)
  | (c, now, newId) :: rest =>
      let (r, w1) := verifyOTP email c now newId w in
      let (rs, w2) := verifyOTP_calls email rest w1 in
      (r :: rs, w2)
  end.

Fixpoint verifyForgetPasswordOTP_calls (email : string) (calls : list (string * Z)) (w : World)
  : list (Res string) * World :=
  match calls with
  | [] => ([], w)
  | (c, now) :: rest =>
      let (r, w1) := verifyForgetPasswordOTP email c now w in
      let (rs, w2) := verifyForgetPasswordOTP_calls email rest w1 in
      (r :: rs, w2)
  end.

(** The world [w] with the lock-until field of the key (email, p) set to
    [l], everything else as it was. *)
Definition lock_set (w : World) (email : string) (p : purpose) (l : option Z) : World :=
  set_vault w (upd_key (vault w) email p (with_lock l)).

(** ** Concrete request sequences *)

(** A world whose only row is [demoUser]. *)
Definition userWorld : World := mkWorld (fun _ _ => emptyKey) (fun _ => None) [demoUser] [] [].

(** Ann registers at time 0; the random source draws 11111, so the OTP sent
    is ["111111"]. *)
Definition registeredWorld : World :=
  snd (@register demoEnv "Ann" "a@x.com" "Pw1!Pw1!" "USER" None None 0 11111 emptyWorld).

(** Five wrong candidates one second apart, then the OTP that was sent. *)
Definition wrong_then_right : list (string * Z * string) :=
  [("000000", 1000, "id1"); ("000000", 2000, "id2"); ("000000", 3000, "id3");
   ("000000", 4000, "id4"); ("000000", 5000, "id5"); ("111111", 6000, "id6")]%string.

Definition fiveWrongWorld : World :=
  snd (verifyOTP_calls "a@x.com" (firstn 5 wrong_then_right) registeredWorld).

(** The existing user asks for a reset at time 0; the OTP sent is ["122222"]. *)
Definition resetRequestedWorld : World :=
  snd (forgotPassword "a@x.com" 0 22222 userWorld).

(** Four wrong reset candidates one second apart, then the OTP that was
    sent. *)
Definition wrong_then_right_reset : list (string * Z) :=
  [("000000", 1000); ("000000", 2000); ("000000", 3000); ("000000", 4000);
   ("122222", 5000)]%string.

Definition fourWrongResetWorld : World :=
  snd (verifyForgetPasswordOTP_calls "a@x.com" (firstn 4 wrong_then_right_reset)
         resetRequestedWorld).

(** Two [forgotPassword] requests for the same email one second apart. *)
Definition forgot_twice (email : string) (w : World) : list (Res string) :=
  let (r1, w1) := forgotPassword email 0 22222 w in
  let (r2, _) := forgotPassword email 1000 33333 w1 in
  [r1; r2].

(** ** Refresh-token rotation chains *)

Section Rotation.
Context {env : AuthEnv}.

(** The request's Cookie header carries a refreshToken cookie whose value
    is [raw]. *)
Definition presents (cookie : option string) (raw : string) : Prop :=
  option_map cookieValue (findRefreshTokenCookie (cookieHeader cookie)) = Some raw.

(** No stored row has the digest of [tok]. *)
Definition fresh_token (w : World) (tok : string) : Prop :=
  forall r, In r (refreshTokens w) -> rt_tokenHash r <> hashToken tok.

(** A non-revoked row of family [fam]. *)
Definition live_in (fam : string) (r : RefreshRow) : bool :=
  sameFamily fam r && negb (rt_isRevoked r).

Variables uid fam : string.

(** [rotated w cur prev]: starting from a successful login of user [uid] that
    opened the new family [fam], a run of successful [refreshToken] calls,
    each presenting the token issued last, has led to [w]; [cur] is the token
    issued last and [prev] all tokens issued before it, newest first.  Every
    token issued is new to the table. *)
Inductive rotated : World -> string -> list string -> Prop :=
| rotated_login email password now tok w res w1 :
    fam <> EmptyString ->
    (forall r, In r (refreshTokens w) -> rt_familyId r <> Some fam) ->
    fresh_token w tok ->
    login email password now tok fam w = (Ok res, w1) ->
    u_id (fst (fst res)) = uid ->
    rotated w1 tok []
| rotated_refresh w cur prev cookie now tok uuid res w1 :
    rotated w cur prev ->
    presents cookie cur ->
    fresh_token w tok ->
    refreshToken cookie now tok uuid w = (Ok res, w1) ->
    rotated w1 tok (cur :: prev).

(** The ledger invariant along a rotation chain. *)
Definition rot_inv (w : World) (cur : string) (prev : list string) : Prop :=
  (forall r, In r (refreshTokens w) -> rt_familyId r = Some fam -> rt_userId r = uid) /\
  (forall r, In r (refreshTokens w) -> rt_tokenHash r = hashToken cur ->
     rt_familyId r = Some fam) /\
  (forall r, In r (refreshTokens w) -> live_in fam r = true -> rt_tokenHash r = hashToken cur) /\
  length (filter (live_in fam) (refreshTokens w)) = 1%nat /\
  (forall p, In p prev -> forall r, In r (refreshTokens w) -> rt_tokenHash r = hashToken p ->
     rt_isRevoked r = true) /\
  (forall p, In p prev -> exists r, In r (refreshTokens w) /\ rt_tokenHash r = hashToken p).

End Rotation.

(** Ann logs in at time 0 and the family ["fam1"] is opened with token
    ["tok0"]; two rotations follow, one second apart. *)
Definition rotWorld0 : World :=
  snd (@login demoEnv "a@x.com" "Pw1!Pw1!" 0 "tok0" "fam1" userWorld).
Definition rotWorld1 : World :=
  snd (@refreshToken demoEnv (Some "refreshToken=tok0"%string) 1000 "tok1" "fam2" rotWorld0).
Definition rotWorld2 : World :=
  snd (@refreshToken demoEnv (Some "refreshToken=tok1"%string) 2000 "tok2" "fam3" rotWorld1).

(** After the rotations' login, Ann asks for a reset at 5000 (OTP ["122222"])
    and verifies it at 6000. *)
Definition resetReadyWorld : World :=
  snd (verifyForgetPasswordOTP "a@x.com" "122222" 6000
         (snd (forgotPassword "a@x.com" 5000 22222 rotWorld0))).

(** ** Registration and the user store *)

(** Some row of [l] has this email. *)
Definition has_email (e : string) (l : list UserRow) : bool :=
  existsb (fun u => String.eqb (u_email u) e) l.

Definition emails (w : World) : list string := map u_email (users w).

(** Every pending registration is stored under its own email. *)
Definition reg_wf (w : World) : Prop :=
  forall e d exp, regs w e = Some (d, exp) -> rd_email d = e.

(** A computation whose every run, failing or not, takes the world from [w]
    to a world related to [w] by [P]. *)
Definition keeps (P : World -> World -> Prop) {A} (m : M A) : Prop :=
  forall w, P w (snd (m w)).

Definition same_emails (w w' : World) : Prop := emails w' = emails w.

Definition keeps_wf (w w' : World) : Prop := reg_wf w -> reg_wf w'.

(** ** The other token helpers of src/utils/auth-utils.ts *)

(** A row of [password_reset_tokens] (src/db/schema): [used] defaults to
    false. *)
Record ResetRow := mkResetRow {
  pr_id : string;
  pr_userId : string;
  pr_tokenHash : string;
  pr_expiresAt : Z;
  pr_used : bool
}.

Section AuthUtils.
Context {env : AuthEnv}.

(** [verifyRefreshToken(token, userId)]: [result.length > 0] for the rows
    of the user with this digest, [isRevoked = false] and
    [lt(expiresAt, new Date())]; [now] is [new Date()]. *)
Definition verifyRefreshToken (token userId : string) (now : Z) : M bool :=
  let tokenHash := hashToken token in
  result <- gets (fun w => find (fun r =>
              String.eqb (rt_userId r) userId && String.eqb (rt_tokenHash r) tokenHash &&
              Bool.eqb (rt_isRevoked r) false && (rt_expiresAt r <? now))
              (refreshTokens w)) ;;
  ret (match result with Some _ => true | None => false end).

(** [password_reset_tokens] is used by no router procedure; its two helpers
    take and return the table.  [storePasswordResetToken(userId, token)];
    [newId] is the row's [defaultRandom()] id. *)
Definition storePasswordResetToken (userId token : string) (now : Z) (newId : string)
  (rows : list ResetRow) : list ResetRow :=
  let tokenHash := hashToken token in
  let expiresAt := now + 15 * 60 * 1000 in
  rows ++ [mkResetRow newId userId tokenHash expiresAt false].

Definition mark_used (r : ResetRow) : ResetRow :=
  mkResetRow (pr_id r) (pr_userId r) (pr_tokenHash r) (pr_expiresAt r) true.

(** [verifyPasswordResetToken(token, userId)]: the first row of the user
    with this digest, [used = false] and [lt(expiresAt, new Date())] is
    marked used (by id) and [true] returned. *)
Definition verifyPasswordResetToken (token userId : string) (now : Z)
  (rows : list ResetRow) : bool * list ResetRow :=
  let tokenHash := hashToken token in
  match find (fun r => String.eqb (pr_userId r) userId && String.eqb (pr_tokenHash r) tokenHash &&
                       Bool.eqb (pr_used r) false && (pr_expiresAt r <? now)) rows with
  | Some r => (true, map (fun r' => if String.eqb (pr_id r') (pr_id r) then mark_used r' else r')
                         rows)
  | None => (false, rows)
  end.

End AuthUtils.

(** ** More of src/lib/crypto.ts *)

(** The regular-expression class [\d] (no [u] flag): an ASCII digit. *)
Definition is_digit (a : ascii) : bool :=
  (48 <=? nat_of_ascii a)%nat && (nat_of_ascii a <=? 57)%nat.

(** [isValidOTP(otp)]: [/^\d{6}$/.test(otp)]. *)
Definition isValidOTP (otp_ : string) : bool :=
  (String.length otp_ =? 6)%nat && forallb is_digit (list_ascii_of_string otp_).

(** A request leaves the vault entries of purpose [p] as they were. *)
Definition vault_keeps (p : purpose) (w w' : World) : Prop :=
  forall e, vault w' e p = vault w e p.

(** [generateRefreshToken()]: [crypto.randomBytes(64).toString("hex")];
    [randomBytes] are the drawn bytes, each written as two lower-case hex
    digits. *)
Definition hex_digit (n : Z) : ascii :=
  ascii_of_nat (Z.to_nat (if n <? 10 then 48 + n else 87 + n)).

Definition toHex (bytes : list Z) : string :=
  fold_right (fun b s => String (hex_digit (b / 16)) (String (hex_digit (b mod 16)) s))
             EmptyString bytes.

Definition generateRefreshToken (randomBytes : list Z) : string := toHex randomBytes.

(** The string has no character [c]. *)
Definition lacks (c : ascii) (s : string) : bool :=
  forallb (fun a => negb (Ascii.eqb a c)) (list_ascii_of_string s).

(** *** [verifyOTPSecure] *)

(** A JavaScript string as its UTF-16 code units; [Buffer.from(s, "utf8")]
    encodes it to UTF-8, writing a lone surrogate as U+FFFD (EF BF BD). *)
Definition is_high_surrogate (u : Z) : bool := (55296 <=? u) && (u <=? 56319).
Definition is_low_surrogate (u : Z) : bool := (56320 <=? u) && (u <=? 57343).

Definition replacement_bytes : list Z := [239; 191; 189].

Definition utf8_3 (u : Z) : list Z := [224 + u / 4096; 128 + (u / 64) mod 64; 128 + u mod 64].

Definition utf8_4 (cp : Z) : list Z :=
  [240 + cp / 262144; 128 + (cp / 4096) mod 64; 128 + (cp / 64) mod 64; 128 + cp mod 64].

Fixpoint utf8_encode (s : list Z) : list Z :=
  match s with
  | [] => []
  | u :: rest =>
      if u <? 128 then u :: utf8_encode rest
      else if u <? 2048 then (192 + u / 64) :: (128 + u mod 64) :: utf8_encode rest
      else if is_high_surrogate u then
        match rest with
        | v :: rest' =>
            if is_low_surrogate v
            then utf8_4 (65536 + (u - 55296) * 1024 + (v - 56320)) ++ utf8_encode rest'
            else replacement_bytes ++ utf8_encode rest
        | [] => replacement_bytes
        end
      else if is_low_surrogate u then replacement_bytes ++ utf8_encode rest
      else utf8_3 u ++ utf8_encode rest
  end.

(** A call that returns a boolean or throws. *)
Inductive Outcome :=
| Returns (b : bool)
| Throws (message : string).

(** [crypto.timingSafeEqual(a, b)]: throws a [RangeError] when the byte
    lengths differ. *)
Definition timingSafeEqual (a b : list Z) : Outcome :=
  if Nat.eqb (length a) (length b)
  then Returns (if list_eq_dec Z.eq_dec a b then true else false)
  else Throws "Input buffers must have the same byte length".

(** [verifyOTPSecure(inputOTP, storedOTP)]; [!s] holds of the empty string
    and [s.length] counts code units. *)
Definition verifyOTPSecure (inputOTP storedOTP : list Z) : Outcome :=
  if match inputOTP with [] => true | _ => false end
     || match storedOTP with [] => true | _ => false end
     || negb (Nat.eqb (length inputOTP) (length storedOTP))
  then Returns false
  else timingSafeEqual (utf8_encode inputOTP) (utf8_encode storedOTP).

(** A cooldown or lock deadline that is absent or already passed. *)
Definition not_active (o : option Z) (now : Z) : Prop :=
  match o with Some t => t <= now | None => True end.

(** A character of a cookie token: no whitespace, [;] or [=]. *)
Definition token_char (a : ascii) : bool :=
  negb (is_ws a) && negb (Ascii.eqb a ";") && negb (Ascii.eqb a "=").

(** How many code units of a string are outside ASCII. *)
Definition non_ascii_count (s : list Z) : nat :=
  length (filter (fun u => negb (u <? 128)) s).

(** ** Proofs *)

(** *** Generic facts *)

(** Case analysis on the boolean comparisons of a goal, then [lia]. *)
Ltac zbool :=
  repeat match goal with
  | |- context [?a =? ?b] => destruct (Z.eqb_spec a b)
  | |- context [?a <=? ?b] => destruct (Z.leb_spec a b)
  | |- context [?a <? ?b] => destruct (Z.ltb_spec a b)
  end; simpl; lia.

Lemma sum_range_ext (f g : Z -> Z) (m : nat) :
  forall a, (forall v, a <= v < a + Z.of_nat m -> f v = g v) ->
  sum_range f a m = sum_range g a m.
Proof.
  induction m as [|m IH]; intros a H; simpl; [reflexivity|].
  rewrite (H a) by lia. rewrite (IH (a + 1)); [reflexivity|].
  intros v Hv. apply H. lia.
Qed.

Lemma sum_range_add (f g : Z -> Z) (m : nat) :
  forall a, sum_range (fun v => f v + g v) a m = sum_range f a m + sum_range g a m.
Proof. induction m as [|m IH]; intros a; simpl; [reflexivity|]. rewrite IH. lia. Qed.

Lemma sum_range_const (c : Z) (m : nat) :
  forall a, sum_range (fun _ => c) a m = c * Z.of_nat m.
Proof. induction m as [|m IH]; intros a; simpl; [lia|]. rewrite IH. lia. Qed.

Lemma sum_range_indicator (x : Z) (m : nat) :
  forall a, sum_range (fun v => if x =? v then 1 else 0) a m =
            if (a <=? x) && (x <? a + Z.of_nat m) then 1 else 0.
Proof.
  induction m as [|m IH]; intros a; simpl sum_range.
  - zbool.
  - rewrite IH. zbool.
Qed.

Lemma otp_number_range (r : Z) : 100000 <= otp_number r <= 999999.
Proof.
  unfold otp_number. pose proof (Z.mod_pos_bound r 900000 ltac:(lia)). lia.
Qed.

Lemma sum_preimages (n m : nat) :
  Z.of_nat m = 900000 -> sum_range (preimages n) 100000 m = Z.of_nat n.
Proof.
  intros Hm. induction n as [|n IH].
  - transitivity (sum_range (fun _ => 0) 100000 m).
    + apply sum_range_ext. reflexivity.
    + rewrite sum_range_const. lia.
  - transitivity (sum_range (fun v => preimages n v +
                    (if otp_number (Z.of_nat n) =? v then 1 else 0)) 100000 m).
    + apply sum_range_ext. reflexivity.
    + rewrite sum_range_add, IH, sum_range_indicator, Hm.
      pose proof (otp_number_range (Z.of_nat n)). zbool.
Qed.

Lemma nat_900000 : Z.of_nat (Z.to_nat 900000) = 900000.
Proof. rewrite Z2Nat.id; lia. Qed.

Lemma nat_U32 : Z.of_nat U32 = 2 ^ 32.
Proof. unfold U32. rewrite Z2Nat.id; lia. Qed.

Lemma sum_preimages_U32 :
  sum_range (preimages U32) 100000 (Z.to_nat 900000) = Z.of_nat U32.
Proof. exact (sum_preimages U32 (Z.to_nat 900000) nat_900000). Qed.

Lemma sum_preimages_uniform :
  otp_uniform ->
  sum_range (preimages U32) 100000 (Z.to_nat 900000) =
  sum_range (fun _ => preimages U32 100000) 100000 (Z.to_nat 900000).
Proof.
  intros H. apply sum_range_ext. intros v Hv. rewrite nat_900000 in Hv. apply H. lia.
Qed.

Lemma sum_range_900000 (c : Z) :
  sum_range (fun _ => c) 100000 (Z.to_nat 900000) = c * 900000.
Proof. rewrite sum_range_const, nat_900000. reflexivity. Qed.

(** The 2^32 random values cannot be spread evenly over 900000 OTP values. *)
Lemma otp_not_uniform : ~ otp_uniform.
Proof.
  intros H. pose proof sum_preimages_U32 as S.
  rewrite (sum_preimages_uniform H), sum_range_900000, nat_U32 in S.
  replace (2 ^ 32) with 4294967296 in S by reflexivity. lia.
Qed.

(** *** C10: generateOTP *)

(** C10 (counterexample).  The distribution of [generateOTP] over a uniform
    32-bit random source is not uniform over the 900000 OTP values: no value
    count can be shared by all of them, since 2^32 is not a multiple of
    900000 and the code applies no rejection step. *)
Lemma generateOTP_not_uniform : ~ otp_uniform.
Proof. exact otp_not_uniform. Qed.

(** C10 (amended).  For every random value [r] the OTP is
    [(r mod 900000) + 100000], a value in [100000, 999999], and since no
    rejection or correction is applied the 900000 values are not equally
    likely under a uniform 32-bit source. *)
Theorem generateOTP_range_biased :
  (forall r, generateOTP r = toString (otp_number r) /\ 100000 <= otp_number r <= 999999)
  /\ ~ otp_uniform.
Proof.
  split.
  - intros r. split; [reflexivity | apply otp_number_range].
  - exact otp_not_uniform.
Qed.

(** *** C4: expiry of a stored refresh token *)

(** C4.  [storeRefreshToken] appends one row whose expiry is
    [Date.now() + REFRESH_TOKEN_EXPIRY]; [Date.now()] is in milliseconds and
    [REFRESH_TOKEN_EXPIRY] is 2592000 (30 days counted in seconds), so the row
    expires 2592000 ms (43.2 minutes) after insertion, not 30 days
    (2592000000 ms) after it.  So the token Ann gets at login (time 0) is
    already refused one hour later, while her cookie lives 30 days. *)
Theorem storeRefreshToken_expiry :
  (forall (env : AuthEnv) (userId token uuid : string) (familyId : option string)
          (now : Z) (w : World),
   exists r,
     storeRefreshToken userId token familyId now uuid w =
       (Ok tt, set_refresh w (refreshTokens w ++ [r])) /\
     rt_expiresAt r = now + 2592000 /\
     rt_expiresAt r <> now + 30 * 24 * 60 * 60 * 1000) /\
  fst (@refreshToken demoEnv (Some "refreshToken=tok0"%string) 3600000 "tok1" "fam2" rotWorld0) =
    Err (mkTRPCError UNAUTHORIZED "Invalid refresh token").
Proof.
  split.
  - intros env userId token uuid familyId now w.
    eexists. split; [reflexivity|]. simpl. unfold REFRESH_TOKEN_EXPIRY. lia.
  - vm_compute. reflexivity.
Qed.

(** *** C8: failures of the refresh procedure *)

(** C8 (counterexample).  A request without a refreshToken cookie and a
    request with an unknown token are both rejected as [UNAUTHORIZED], but
    with different messages. *)
Lemma refreshToken_missing_vs_unknown :
  fst (refreshToken (env := demoEnv) None 0 "t1" "f1" emptyWorld) =
    Err (mkTRPCError UNAUTHORIZED "No refresh token") /\
  fst (refreshToken (env := demoEnv) (Some "refreshToken=unknown"%string) 0 "t1" "f1" emptyWorld) =
    Err (mkTRPCError UNAUTHORIZED "Invalid refresh token") /\
  fst (refreshToken (env := demoEnv) None 0 "t1" "f1" emptyWorld) <>
  fst (refreshToken (env := demoEnv) (Some "refreshToken=unknown"%string) 0 "t1" "f1" emptyWorld).
Proof. vm_compute. split; [reflexivity | split; [reflexivity | discriminate]]. Qed.

(** C8 (amended).  When the refresh procedure finds no valid token it
    changes nothing and throws [UNAUTHORIZED]: "No refresh token" when the
    request has no refreshToken cookie, and the one message "Invalid refresh
    token" for every presented token that [lookupValid] misses, whether it is
    unknown, expired or revoked. *)
Theorem refreshToken_miss {env : AuthEnv} (cookie : option string) (now : Z)
  (newRefreshToken newUuid : string) (w : World) :
  refresh_miss w cookie now ->
  refreshToken cookie now newRefreshToken newUuid w =
    (Err (mkTRPCError UNAUTHORIZED (refresh_miss_message cookie)), w).
Proof.
  unfold refresh_miss, refresh_miss_message, refreshToken.
  destruct (findRefreshTokenCookie (cookieHeader cookie)) as [c|]; intros H; [|reflexivity].
  unfold bind, findValidRefresh, gets. unfold lookupValid in H. rewrite H. reflexivity.
Qed.

(** *** The refresh-token ledger *)

(** Unfold the monadic code of a procedure down to state passing. *)
Ltac run :=
  cbv beta iota zeta delta [bind ret throw gets modify getKey updateKey getOTP setOTP
    getPasswordResetOTP setPasswordResetOTP getOTPFailCount incrementOTPFailCount
    getAttempts incrementAttempts getOTPSendCount incrementOTPSendCount setLock checkLock
    setCooldown checkCooldown getCooldownRemaining cleanup setPasswordResetVerified
    checkPasswordResetVerified setRegistrationData getRegistrationData
    deleteRegistrationData sendEmail findUserByEmail findUserById insertUser
    findValidRefresh findRefreshByHash storeRefreshToken updatePassword
    checkOTPRateLimit sendVerificationOtp checkPasswordResetRateLimit
    sendPasswordResetOtp register verifyOTP resendOTP login forgotPassword
    verifyForgetPasswordOTP resendPasswordResetOTP resetPassword refreshToken logout].

(** Reduce projections and the record updates of the vault, leaving
    arithmetic and strings alone. *)
Ltac reduce :=
  cbn [negb andb orb fst snd vault users regs refreshTokens outbox set_vault set_users
       set_regs set_refresh set_outbox ks_otp ks_failCount ks_attempts ks_sendCount
       ks_cooldownUntil ks_lockUntil ks_verified with_otp with_failCount with_attempts
       with_sendCount with_cooldown with_lock with_verified].

(** Split on the first integer comparison of the goal, closing the branch
    the hypotheses exclude. *)
Ltac zcase :=
  match goal with
  | |- context [?a <=? ?b] => destruct (Z.leb_spec a b); try lia
  | |- context [?a <? ?b] => destruct (Z.ltb_spec a b); try lia
  end.

Lemma revokeRefreshTokens_run {env : AuthEnv} userId familyId w :
  revokeRefreshTokens userId familyId w =
    (Ok tt, set_refresh w (revoke_map userId familyId (refreshTokens w))).
Proof.
  unfold revokeRefreshTokens, revoke_map, revokes, modify.
  destruct familyId as [fam|]; [destruct (truthy (Some fam))|];
    f_equal; unfold set_refresh; f_equal; apply map_ext; intros r; rewrite ?andb_true_r; reflexivity.
Qed.

Lemma revokes_family userId familyId r :
  rt_userId r = userId -> rt_familyId r = familyId -> revokes userId familyId r = true.
Proof.
  intros Hu Hf. unfold revokes. rewrite Hu, String.eqb_refl. simpl.
  destruct familyId as [fam|]; [|reflexivity].
  destruct (truthy (Some fam)); [|reflexivity].
  unfold sameFamily. rewrite Hf. apply String.eqb_refl.
Qed.

Lemma in_revoke_map userId familyId l r' :
  In r' (revoke_map userId familyId l) ->
  exists r, In r l /\ r' = (if revokes userId familyId r then revoke_row r else r).
Proof. unfold revoke_map. rewrite in_map_iff. intros [r [H1 H2]]. eauto. Qed.

(** After a revocation no row matching it is valid. *)
Lemma revoke_map_covers userId familyId l r' :
  In r' (revoke_map userId familyId l) ->
  rt_userId r' = userId -> rt_familyId r' = familyId -> rt_isRevoked r' = true.
Proof.
  intros Hin Hu Hf. apply in_revoke_map in Hin as [r [Hr ->]].
  destruct (revokes userId familyId r) eqn:E; [reflexivity|].
  simpl in *. rewrite (revokes_family userId familyId r Hu Hf) in E. discriminate.
Qed.

(** Without a family id every row of the user is revoked. *)
Lemma revoke_map_user userId l r' :
  In r' (revoke_map userId None l) -> rt_userId r' = userId -> rt_isRevoked r' = true.
Proof.
  intros Hin Hu. apply in_revoke_map in Hin as [r [Hr ->]].
  destruct (revokes userId None r) eqn:E; [reflexivity|].
  unfold revokes in E. rewrite Hu, String.eqb_refl in E. discriminate.
Qed.

Lemma find_valid_in h now l r :
  find (validRow h now) l = Some r -> In r l /\ validRow h now r = true.
Proof. intros H. apply find_some in H. exact H. Qed.

Lemma validRow_not_revoked h now r : validRow h now r = true -> rt_isRevoked r = false.
Proof.
  unfold validRow. intros H. apply andb_true_iff in H as [H _].
  apply andb_true_iff in H as [_ H]. apply negb_true_iff in H. exact H.
Qed.

Lemma validRow_hash h now r : validRow h now r = true -> rt_tokenHash r = h.
Proof.
  unfold validRow. intros H. apply andb_true_iff in H as [H _].
  apply andb_true_iff in H as [H _]. apply String.eqb_eq in H. exact H.
Qed.

Lemma upd_key_same v e p f : upd_key v e p f e p = f (v e p).
Proof. unfold upd_key. rewrite String.eqb_refl. destruct p; reflexivity. Qed.

(** *** C6: resetPassword *)

(** C6.  Without the reset-verified flag [resetPassword] throws and changes
    nothing.  With the flag set and the user found, it succeeds, every row of
    that user carries the new password hash, every refresh-token row of the
    user (in every family) is revoked, the reset-purpose vault key is cleared,
    and no token resolves through [lookupValid] to a row of the user. *)
Theorem resetPassword_fails_closed_and_revokes_all {env : AuthEnv}
  (email newPassword : string) (w : World) :
  (ks_verified (vault w email password_reset) = false ->
     resetPassword email newPassword w =
       (Err (mkTRPCError UNAUTHORIZED
               "Password reset not verified. Please verify the OTP first."), w)) /\
  (forall user,
     ks_verified (vault w email password_reset) = true ->
     find (fun u => String.eqb (u_email u) email) (users w) = Some user ->
     let w' := snd (resetPassword email newPassword w) in
     fst (resetPassword email newPassword w) = Ok "Password reset successfully"%string /\
     (forall u, In u (users w') -> u_id u = u_id user ->
                u_password_hash u = Some (hashPassword newPassword)) /\
     (forall r, In r (refreshTokens w') -> rt_userId r = u_id user -> rt_isRevoked r = true) /\
     vault w' email password_reset = emptyKey /\
     (forall raw now r, lookupValid w' raw now = Some r -> rt_userId r <> u_id user)).
Proof.
  split.
  - intros Hv. run. rewrite Hv. reflexivity.
  - intros user Hv Hu. run. rewrite Hv. cbn [negb]. cbv beta iota. rewrite Hu.
    rewrite revokeRefreshTokens_run. run. simpl.
    split; [reflexivity|]. split; [|split; [|split]].
    + intros u Hin Hid. apply in_map_iff in Hin as [u0 [<- Hin]].
      destruct (String.eqb (u_id u0) (u_id user)) eqn:E; [reflexivity|].
      rewrite Hid, String.eqb_refl in E. discriminate.
    + intros r Hin Hid. exact (revoke_map_user _ _ r Hin Hid).
    + apply upd_key_same.
    + intros raw now r Hl Hid. unfold lookupValid in Hl. simpl in Hl.
      apply find_valid_in in Hl as [Hin Hval].
      apply validRow_not_revoked in Hval.
      rewrite (revoke_map_user _ _ r Hin Hid) in Hval. discriminate.
Qed.

(** *** C7: logout *)

(** C7.  [logout] always answers "Logged out successfully" with the cleared
    cookie.  When the presented token resolves to a row [r], every row of
    [r]'s user and family is revoked afterwards, so a token whose rows all
    belong to that family (a sibling issued earlier in the same lineage)
    fails [lookupValid]; when no token resolves, nothing changes. *)
Theorem logout_revokes_family {env : AuthEnv} (cookie : option string) (w : World) :
  fst (logout cookie w) = Ok ("Logged out successfully"%string, clearedCookie) /\
  match findRefreshTokenCookie (cookieHeader cookie) with
  | None => snd (logout cookie w) = w
  | Some c =>
    match find (fun r => String.eqb (rt_tokenHash r) (hashToken (cookieValue c)))
               (refreshTokens w) with
    | None => snd (logout cookie w) = w
    | Some r =>
      (forall r', In r' (refreshTokens (snd (logout cookie w))) ->
         rt_userId r' = rt_userId r -> rt_familyId r' = rt_familyId r ->
         rt_isRevoked r' = true) /\
      (forall raw now,
         (forall r', In r' (refreshTokens w) -> rt_tokenHash r' = hashToken raw ->
            rt_userId r' = rt_userId r /\ rt_familyId r' = rt_familyId r) ->
         lookupValid (snd (logout cookie w)) raw now = None)
    end
  end.
Proof.
  run. destruct (findRefreshTokenCookie (cookieHeader cookie)) as [c|];
    [|split; reflexivity].
  destruct (find (fun r => String.eqb (rt_tokenHash r) (hashToken (cookieValue c)))
                 (refreshTokens w)) as [r|]; [|split; reflexivity].
  rewrite revokeRefreshTokens_run. run. simpl. split; [reflexivity|]. split.
  - intros r' Hin Hu Hf. exact (revoke_map_covers _ _ _ r' Hin Hu Hf).
  - intros raw now Hall. unfold lookupValid. simpl.
    destruct (find (validRow (hashToken raw) now) _) as [r'|] eqn:E; [exfalso|reflexivity].
    apply find_valid_in in E as [Hin Hval].
    apply in_revoke_map in Hin as [r0 [Hr0 ->]].
    assert (Hh : rt_tokenHash r0 = hashToken raw).
    { apply validRow_hash in Hval. destruct (revokes _ _ r0); exact Hval. }
    destruct (Hall r0 Hr0 Hh) as [Hu Hf].
    rewrite (revokes_family _ _ r0 Hu Hf) in Hval.
    apply validRow_not_revoked in Hval. discriminate.
Qed.

(** *** The OTP verification paths *)

Lemma truthy_some s : s <> EmptyString -> truthy (Some s) = true.
Proof.
  intros H. unfold truthy. destruct (String.eqb_spec s EmptyString); [contradiction|reflexivity].
Qed.

(** *** C1: the OTP verify paths and reuse of a matched OTP *)

(** C1 (failing input).  The existing user requests a reset (OTP ["122222"])
    and presents that OTP twice: both calls succeed, since the reset path
    only sets the verified flag on a match and never clears the OTP.  The
    email-verification path, by contrast, rejects the reuse of ["111111"]
    with NOT_FOUND after the first call has created the account. *)
Theorem reset_otp_reusable :
  fst (verifyForgetPasswordOTP_calls "a@x.com" [("122222", 1000); ("122222", 2000)]%string
         resetRequestedWorld) =
    [Ok "Password reset OTP verified successfully"%string;
     Ok "Password reset OTP verified successfully"%string] /\
  ks_otp (vault (snd (verifyForgetPasswordOTP_calls "a@x.com"
     [("122222", 1000); ("122222", 2000)]%string resetRequestedWorld)) "a@x.com" password_reset)
    = Some "122222"%string /\
  fst (verifyOTP_calls "a@x.com" [("111111", 1000, "id1"); ("111111", 2000, "id2")]%string
         registeredWorld) =
    [Ok "Email verified successfully. Account created!"%string;
     Err (mkTRPCError NOT_FOUND "OTP expired or not found. Please request a new one.")].
Proof. vm_compute. auto. Qed.

(** *** C2: five wrong OTPs *)

Ltac lock_step :=
  cbv beta iota; reduce; rewrite ?upd_key_same; reduce.

Ltac lock_cases :=
  repeat (lock_step;
          first [ reflexivity
                | match goal with |- context [if ?b then _ else _] => destruct b end
                | match goal with |- context [match ?x with _ => _ end] => destruct x end ]).

(** [verifyOTP] never reads the lock-until field of its key. *)
Lemma verifyOTP_ignores_lock email c now newId w l :
  fst (verifyOTP email c now newId (lock_set w email otp l)) =
  fst (verifyOTP email c now newId w).
Proof. unfold lock_set. run. lock_cases. Qed.

(** Nor does [verifyForgetPasswordOTP]. *)
Lemma verifyForgetPasswordOTP_ignores_lock email c now w l :
  fst (verifyForgetPasswordOTP email c now (lock_set w email password_reset l)) =
  fst (verifyForgetPasswordOTP email c now w).
Proof. unfold lock_set. run. lock_cases. Qed.

(** C2 (failing input).  Ann registers (OTP ["111111"]), sends five wrong
    candidates, then the correct one a second later, well inside 15 minutes.
    The fifth is answered with the lock message, but the sixth is not
    rejected as locked: it gets NOT_FOUND, because the lockout purged the
    OTP.  The answer is the same when the lock set by [setLock] survives the
    purge (the key of [fiveWrongWorld] with lock-until at 5000 ms plus 15
    minutes), since neither verify procedure ever reads the lock: for every
    world and every lock value, their answers are those without the lock.
    The reset path behaves alike; its failure counter is the attempts
    counter, which the send already raised to 1, so there the fourth wrong
    candidate triggers the lock message. *)
Theorem verify_lock_never_checked :
  fst (verifyOTP_calls "a@x.com" wrong_then_right registeredWorld) =
    [Err (mkTRPCError UNAUTHORIZED (incorrectOtpMessage 4));
     Err (mkTRPCError UNAUTHORIZED (incorrectOtpMessage 3));
     Err (mkTRPCError UNAUTHORIZED (incorrectOtpMessage 2));
     Err (mkTRPCError UNAUTHORIZED (incorrectOtpMessage 1));
     Err (mkTRPCError UNAUTHORIZED LOCK_MESSAGE);
     Err (mkTRPCError NOT_FOUND "OTP expired or not found. Please request a new one.")] /\
  fst (verifyOTP "a@x.com" "111111" 6000 "id6"
         (lock_set fiveWrongWorld "a@x.com" otp (Some (5000 + 15 * 60 * 1000)))) =
    Err (mkTRPCError NOT_FOUND "OTP expired or not found. Please request a new one.") /\
  fst (verifyForgetPasswordOTP_calls "a@x.com" wrong_then_right_reset resetRequestedWorld) =
    [Err (mkTRPCError UNAUTHORIZED (incorrectOtpMessage 3));
     Err (mkTRPCError UNAUTHORIZED (incorrectOtpMessage 2));
     Err (mkTRPCError UNAUTHORIZED (incorrectOtpMessage 1));
     Err (mkTRPCError UNAUTHORIZED LOCK_MESSAGE);
     Err (mkTRPCError NOT_FOUND "OTP expired or not found. Please request a new one.")] /\
  fst (verifyForgetPasswordOTP "a@x.com" "122222" 5000
         (lock_set fourWrongResetWorld "a@x.com" password_reset (Some (4000 + 15 * 60 * 1000)))) =
    Err (mkTRPCError NOT_FOUND "OTP expired or not found. Please request a new one.") /\
  (forall email c now newId w l,
     fst (verifyOTP email c now newId (lock_set w email otp l)) =
     fst (verifyOTP email c now newId w)) /\
  (forall email c now w l,
     fst (verifyForgetPasswordOTP email c now (lock_set w email password_reset l)) =
     fst (verifyForgetPasswordOTP email c now w)).
Proof.
  split; [vm_compute; reflexivity|]. split; [vm_compute; reflexivity|].
  split; [vm_compute; reflexivity|]. split; [vm_compute; reflexivity|].
  split; [exact verifyOTP_ignores_lock | exact verifyForgetPasswordOTP_ignores_lock].
Qed.

(** *** C9: forgotPassword *)

(** C9 (failing input).  Two reset requests one second apart: for an email
    with no account both get the generic acknowledgement, but for the
    existing user the second one fails with the cooldown error of
    [sendPasswordResetOtp], which [forgotPassword] does not catch. *)
Theorem forgotPassword_reveals_account :
  forgot_twice "a@x.com"%string emptyWorld = [Ok GENERIC_RESET_ACK; Ok GENERIC_RESET_ACK] /\
  forgot_twice "a@x.com"%string userWorld =
    [Ok GENERIC_RESET_ACK;
     Err (mkTRPCError INTERNAL_SERVER_ERROR
            "Please wait 60 seconds before requesting another OTP")].
Proof. vm_compute. auto. Qed.

(** *** C3: refresh-token rotation *)

Lemma login_ok_shape {env : AuthEnv} email password now tok uuid w res w1 :
  login email password now tok uuid w = (Ok res, w1) ->
  w1 = set_refresh w (refreshTokens w ++
         [mkRefresh (u_id (fst (fst res))) (hashToken tok) (now + REFRESH_TOKEN_EXPIRY)
                    false (Some uuid)]).
Proof.
  run. destruct (find _ (users w)) as [user|]; [|discriminate].
  destruct (u_is_verified user); cbn [negb]; [|discriminate].
  destruct (u_password_hash user) as [h|]; [|discriminate].
  destruct (verifyPassword password h); cbn [negb]; [|discriminate].
  intros H. inversion H. reflexivity.
Qed.

Lemma refreshToken_ok_shape {env : AuthEnv} cookie now tok uuid w res w1 :
  refreshToken cookie now tok uuid w = (Ok res, w1) ->
  exists c r, findRefreshTokenCookie (cookieHeader cookie) = Some c /\
    find (validRow (hashToken (cookieValue c)) now) (refreshTokens w) = Some r /\
    w1 = set_refresh w (revoke_map (rt_userId r) (rt_familyId r) (refreshTokens w) ++
           [mkRefresh (rt_userId r) (hashToken tok) (now + REFRESH_TOKEN_EXPIRY) false
              (Some (match rt_familyId r with
                     | Some f => if truthy (rt_familyId r) then f else uuid
                     | None => uuid
                     end))]).
Proof.
  unfold refreshToken. destruct (findRefreshTokenCookie (cookieHeader cookie)) as [c|];
    [|discriminate].
  unfold bind at 1, findValidRefresh, gets.
  destruct (find _ (refreshTokens w)) as [r|] eqn:Hr; [|discriminate].
  unfold bind at 1, findUserById, gets.
  destruct (find _ (users w)) as [user|]; [|discriminate].
  unfold bind at 1. rewrite revokeRefreshTokens_run.
  unfold bind, storeRefreshToken, modify, ret. intros H. injection H as _ Hw. subst w1.
  exists c, r. split; [reflexivity|]. split; [exact Hr|].
  destruct (rt_familyId r); reflexivity.
Qed.

Lemma filter_all_false {A} (f : A -> bool) (l : list A) :
  (forall x, In x l -> f x = false) -> filter f l = [].
Proof.
  induction l as [|x l IH]; intros H; [reflexivity|]. simpl.
  rewrite (H x (or_introl eq_refl)). apply IH. intros y Hy. apply H. right. exact Hy.
Qed.

Lemma live_in_family fam r :
  live_in fam r = true <-> rt_familyId r = Some fam /\ rt_isRevoked r = false.
Proof.
  unfold live_in, sameFamily. rewrite andb_true_iff, negb_true_iff.
  destruct (rt_familyId r) as [f|]; split; intros [H1 H2]; try discriminate; split; auto.
  - apply String.eqb_eq in H1. subst. reflexivity.
  - injection H1 as ->. apply String.eqb_refl.
Qed.

Lemma revoke_map_fields u f l r' :
  In r' (revoke_map u f l) ->
  exists r, In r l /\ rt_userId r' = rt_userId r /\ rt_tokenHash r' = rt_tokenHash r /\
    rt_familyId r' = rt_familyId r /\ (rt_isRevoked r = true -> rt_isRevoked r' = true).
Proof.
  intros Hin. apply in_revoke_map in Hin as [r [Hr ->]]. exists r.
  destruct (revokes u f r); simpl; auto.
Qed.

Lemma revoke_map_in u f l r :
  In r l -> exists r', In r' (revoke_map u f l) /\ rt_tokenHash r' = rt_tokenHash r.
Proof.
  intros Hin. exists (if revokes u f r then revoke_row r else r). split.
  - unfold revoke_map. apply in_map_iff. eauto.
  - destruct (revokes u f r); reflexivity.
Qed.

Lemma rot_inv_login {env : AuthEnv} uid fam w tok e :
  (forall r, In r (refreshTokens w) -> rt_familyId r <> Some fam) -> fresh_token w tok ->
  rot_inv uid fam (set_refresh w (refreshTokens w ++
                     [mkRefresh uid (hashToken tok) e false (Some fam)])) tok [].
Proof.
  intros Hnf Hfr. unfold rot_inv. cbn [set_refresh refreshTokens].
  assert (Hold : forall r, In r (refreshTokens w) -> live_in fam r = false).
  { intros r Hr. destruct (live_in fam r) eqn:E; [|reflexivity].
    apply live_in_family in E as [E _]. exfalso. exact (Hnf r Hr E). }
  split; [|split; [|split; [|split; [|split]]]].
  - intros r Hin Hf. apply in_app_or in Hin as [Hin|[<-|[]]]; [|reflexivity].
    exfalso. exact (Hnf r Hin Hf).
  - intros r Hin Hh. apply in_app_or in Hin as [Hin|[<-|[]]]; [|reflexivity].
    exfalso. exact (Hfr r Hin Hh).
  - intros r Hin Hl. apply in_app_or in Hin as [Hin|[<-|[]]]; [|reflexivity].
    rewrite (Hold r Hin) in Hl. discriminate.
  - rewrite filter_app, (filter_all_false _ _ Hold). simpl.
    unfold live_in, sameFamily. simpl. rewrite String.eqb_refl. reflexivity.
  - intros p [].
  - intros p [].
Qed.

Lemma rot_inv_step {env : AuthEnv} uid fam w cur prev r0 tok e uuid :
  fam <> EmptyString -> rot_inv uid fam w cur prev ->
  In r0 (refreshTokens w) -> rt_tokenHash r0 = hashToken cur -> fresh_token w tok ->
  rot_inv uid fam
    (set_refresh w (revoke_map (rt_userId r0) (rt_familyId r0) (refreshTokens w) ++
       [mkRefresh (rt_userId r0) (hashToken tok) e false
          (Some (match rt_familyId r0 with
                 | Some f => if truthy (rt_familyId r0) then f else uuid
                 | None => uuid
                 end))])) tok (cur :: prev).
Proof.
  intros Hne [I1 [I2 [I3 [I4 [I5 I6]]]]] Hin0 Hh0 Hfr.
  assert (Hf0 := I2 r0 Hin0 Hh0). assert (Hu0 := I1 r0 Hin0 Hf0).
  rewrite Hf0, Hu0, (truthy_some fam Hne). unfold rot_inv. cbn [set_refresh refreshTokens].
  (* every row of the family is revoked by the map *)
  assert (Hdead : forall r', In r' (revoke_map uid (Some fam) (refreshTokens w)) ->
                  live_in fam r' = false).
  { intros r' Hr'. destruct (live_in fam r') eqn:E; [|reflexivity].
    apply live_in_family in E as [Ef Er].
    destruct (revoke_map_fields _ _ _ _ Hr') as [r [Hr [Hu [_ [Hf _]]]]].
    rewrite Hf in Ef. rewrite (revoke_map_covers _ _ _ _ Hr'
      ltac:(rewrite Hu; exact (I1 r Hr Ef)) ltac:(rewrite Hf; exact Ef)) in Er.
    discriminate. }
  split; [|split; [|split; [|split; [|split]]]].
  - intros r' Hin Hf. apply in_app_or in Hin as [Hin|[<-|[]]]; [|reflexivity].
    destruct (revoke_map_fields _ _ _ _ Hin) as [r [Hr [Hu [_ [Hfr' _]]]]].
    rewrite Hu. apply I1; [exact Hr|]. rewrite <- Hfr'. exact Hf.
  - intros r' Hin Hh. apply in_app_or in Hin as [Hin|[<-|[]]]; [|reflexivity].
    destruct (revoke_map_fields _ _ _ _ Hin) as [r [Hr [_ [Hh' _]]]].
    exfalso. apply (Hfr r Hr). rewrite <- Hh'. exact Hh.
  - intros r' Hin Hl. apply in_app_or in Hin as [Hin|[<-|[]]]; [|reflexivity].
    rewrite (Hdead r' Hin) in Hl. discriminate.
  - rewrite filter_app, (filter_all_false _ _ Hdead). simpl.
    unfold live_in, sameFamily. simpl. rewrite String.eqb_refl. reflexivity.
  - intros p Hp r' Hin Hh. apply in_app_or in Hin as [Hin|[<-|[]]].
    + destruct (revoke_map_fields _ _ _ _ Hin) as [r [Hr [Hu [Hh' [Hf Hrv]]]]].
      destruct Hp as [<-|Hp].
      * assert (Hfr' : rt_familyId r = Some fam) by (apply I2; [exact Hr|congruence]).
        apply (revoke_map_covers _ _ _ _ Hin).
        -- rewrite Hu. exact (I1 r Hr Hfr').
        -- congruence.
      * apply Hrv. apply (I5 p Hp r Hr). congruence.
    + exfalso. destruct Hp as [<-|Hp].
      * apply (Hfr r0 Hin0). simpl in Hh. congruence.
      * destruct (I6 p Hp) as [r [Hr Hrh]]. apply (Hfr r Hr). simpl in Hh. congruence.
  - intros p Hp. destruct Hp as [<-|Hp].
    + destruct (revoke_map_in uid (Some fam) _ _ Hin0) as [r' [Hr' Hh']].
      exists r'. split; [apply in_or_app; left; exact Hr'|congruence].
    + destruct (I6 p Hp) as [r [Hr Hrh]].
      destruct (revoke_map_in uid (Some fam) _ _ Hr) as [r' [Hr' Hh']].
      exists r'. split; [apply in_or_app; left; exact Hr'|congruence].
Qed.

Lemma rotated_inv {env : AuthEnv} uid fam w cur prev :
  rotated uid fam w cur prev -> fam <> EmptyString /\ rot_inv uid fam w cur prev.
Proof.
  induction 1 as [email password now tok w res w1 Hne Hnf Hfr Hlog Hu
                 |w cur prev cookie now tok uuid res w1 Hrot [Hne IH] Hpr Hfr Href].
  - split; [exact Hne|]. apply login_ok_shape in Hlog. subst w1. rewrite Hu.
    apply rot_inv_login; assumption.
  - split; [exact Hne|].
    apply refreshToken_ok_shape in Href as [c [r [Hc [Hfind ->]]]].
    unfold presents in Hpr. rewrite Hc in Hpr. injection Hpr as Hcv.
    apply find_valid_in in Hfind as [Hin Hval]. apply validRow_hash in Hval.
    rewrite Hcv in Hval. apply rot_inv_step; assumption.
Qed.

(** C3.  Along any chain of rotations starting from one login, the family
    has exactly one non-revoked row, that row holds the digest of the token
    issued last, and every token issued before it (the login's token and all
    tokens replaced since) fails [lookupValid] at any time. *)
Theorem refresh_rotation_single_live {env : AuthEnv} uid fam w cur prev :
  rotated uid fam w cur prev ->
  length (filter (live_in fam) (refreshTokens w)) = 1%nat /\
  (forall r, In r (refreshTokens w) -> live_in fam r = true -> rt_tokenHash r = hashToken cur) /\
  (forall p now, In p prev -> lookupValid w p now = None).
Proof.
  intros Hrot. destruct (rotated_inv uid fam w cur prev Hrot) as [_ [_ [_ [I3 [I4 [I5 _]]]]]].
  split; [exact I4|]. split; [exact I3|].
  intros p now Hp. unfold lookupValid.
  destruct (find (validRow (hashToken p) now) (refreshTokens w)) as [r|] eqn:E; [|reflexivity].
  apply find_valid_in in E as [Hin Hval].
  assert (Hrv := I5 p Hp r Hin (validRow_hash _ _ _ Hval)).
  rewrite (validRow_not_revoked _ _ _ Hval) in Hrv. discriminate.
Qed.

Ltac fresh_tac :=
  let r := fresh "r" in let Hr := fresh "Hr" in let Hh := fresh "Hh" in
  intros r Hr Hh; vm_compute in Hr;
  repeat (destruct Hr as [<-|Hr]; [vm_compute in Hh; discriminate|]); contradiction.

Lemma refresh_rotation_single_live_witness :
  (length (filter (live_in "fam1") (refreshTokens rotWorld2)) = 1%nat /\
   (forall r, In r (refreshTokens rotWorld2) -> live_in "fam1" r = true ->
      rt_tokenHash r = @hashToken demoEnv "tok2") /\
   (forall p now, In p ["tok1"; "tok0"] -> @lookupValid demoEnv rotWorld2 p now = None))%string.
Proof.
  apply (@refresh_rotation_single_live demoEnv "u1" "fam1" rotWorld2 "tok2" ["tok1"; "tok0"])%string.
  apply (@rotated_refresh demoEnv "u1" "fam1" rotWorld1 "tok1" ["tok0"]
           (Some "refreshToken=tok1") 2000 "tok2" "fam3"
           ("jwt:u1", demoUser, @refreshCookie demoEnv "tok2"))%string.
  - apply (@rotated_refresh demoEnv "u1" "fam1" rotWorld0 "tok0" []
             (Some "refreshToken=tok0") 1000 "tok1" "fam2"
             ("jwt:u1", demoUser, @refreshCookie demoEnv "tok1"))%string.
    + apply (@rotated_login demoEnv "u1" "fam1" "a@x.com" "Pw1!Pw1!" 0 "tok0" userWorld
               (demoUser, "jwt:u1", loginCookie "tok0"))%string.
      * discriminate.
      * intros r [].
      * intros r [].
      * vm_compute. reflexivity.
      * reflexivity.
    + vm_compute. reflexivity.
    + fresh_tac.
    + vm_compute. reflexivity.
  - vm_compute. reflexivity.
  - fresh_tac.
  - vm_compute. reflexivity.
Defined.

Section Witnesses.
#[local] Existing Instance demoEnv.

Lemma refreshToken_miss_witness :
  refresh_miss emptyWorld (Some "refreshToken=unknown"%string) 0 /\
  refreshToken (Some "refreshToken=unknown"%string) 0 "t1" "f1" emptyWorld =
    (Err (mkTRPCError UNAUTHORIZED "Invalid refresh token"), emptyWorld).
Proof.
  split; [vm_compute; reflexivity|].
  apply (refreshToken_miss (Some "refreshToken=unknown"%string) 0 "t1" "f1" emptyWorld).
  vm_compute. reflexivity.
Defined.

Lemma resetPassword_fails_closed_and_revokes_all_witness :
  (resetPassword "a@x.com" "New1!" userWorld =
     (Err (mkTRPCError UNAUTHORIZED
             "Password reset not verified. Please verify the OTP first."), userWorld) /\
   let w' := snd (resetPassword "a@x.com" "New1!" resetReadyWorld) in
   fst (resetPassword "a@x.com" "New1!" resetReadyWorld) = Ok "Password reset successfully" /\
   (forall u, In u (users w') -> u_id u = u_id demoUser ->
              u_password_hash u = Some (hashPassword "New1!")) /\
   (forall r, In r (refreshTokens w') -> rt_userId r = u_id demoUser -> rt_isRevoked r = true) /\
   vault w' "a@x.com" password_reset = emptyKey /\
   (forall raw now r, lookupValid w' raw now = Some r -> rt_userId r <> u_id demoUser))%string.
Proof.
  split.
  - apply (proj1 (resetPassword_fails_closed_and_revokes_all "a@x.com" "New1!" userWorld))%string.
    vm_compute. reflexivity.
  - apply (proj2 (resetPassword_fails_closed_and_revokes_all "a@x.com" "New1!" resetReadyWorld)
             demoUser)%string; vm_compute; reflexivity.
Defined.

Lemma logout_revokes_family_witness :
  fst (logout (Some "refreshToken=tok0"%string) rotWorld0) =
    Ok ("Logged out successfully"%string, clearedCookie) /\
  (forall now, lookupValid (snd (logout (Some "refreshToken=tok0"%string) rotWorld0))
                 "tok0" now = None).
Proof.
  destruct (logout_revokes_family (Some "refreshToken=tok0"%string) rotWorld0) as [H1 H2].
  split; [exact H1|]. intros now.
  assert (E1 : findRefreshTokenCookie (cookieHeader (Some "refreshToken=tok0"%string)) =
               Some "refreshToken=tok0"%string) by (vm_compute; reflexivity).
  rewrite E1 in H2. cbv beta iota in H2. revert H2.
  destruct (find _ (refreshTokens rotWorld0)) as [r|] eqn:E2;
    vm_compute in E2; [injection E2 as E2; subst r|discriminate].
  intros [_ H2]. apply H2.
  intros r' Hr' _. vm_compute in Hr'. destruct Hr' as [<-|[]]. split; reflexivity.
Defined.

End Witnesses.

(** *** C5: registration *)

Section Keeps.
Variable P : World -> World -> Prop.
Hypothesis P_refl : forall w, P w w.
Hypothesis P_trans : forall w1 w2 w3, P w1 w2 -> P w2 w3 -> P w1 w3.

Lemma keeps_ret {A} (a : A) : keeps P (ret a).
Proof. intros w. apply P_refl. Qed.

Lemma keeps_throw {A} c msg : keeps P (@throw A c msg).
Proof. intros w. apply P_refl. Qed.

Lemma keeps_gets {A} (f : World -> A) : keeps P (gets f).
Proof. intros w. apply P_refl. Qed.

Lemma keeps_modify f : (forall w, P w (f w)) -> keeps P (modify f).
Proof. intros H w. apply H. Qed.

Lemma keeps_bind {A B} (m : M A) (f : A -> M B) :
  keeps P m -> (forall a, keeps P (f a)) -> keeps P (bind m f).
Proof.
  intros Hm Hf w. unfold bind. specialize (Hm w).
  destruct (m w) as [[a|e] w1]; simpl in *; [|exact Hm].
  eapply P_trans; [exact Hm|apply Hf].
Qed.

End Keeps.

Lemma same_emails_refl w : same_emails w w.
Proof. reflexivity. Qed.

Lemma same_emails_trans w1 w2 w3 : same_emails w1 w2 -> same_emails w2 w3 -> same_emails w1 w3.
Proof. unfold same_emails. congruence. Qed.

Lemma keeps_wf_refl w : keeps_wf w w.
Proof. intros H. exact H. Qed.

Lemma keeps_wf_trans w1 w2 w3 : keeps_wf w1 w2 -> keeps_wf w2 w3 -> keeps_wf w1 w3.
Proof. unfold keeps_wf. auto. Qed.

(** Unfold the service calls of a procedure, keeping its monadic skeleton. *)
Ltac unfold_calls :=
  cbv beta iota zeta delta [getKey updateKey getOTP setOTP
    getPasswordResetOTP setPasswordResetOTP getOTPFailCount incrementOTPFailCount
    getAttempts incrementAttempts getOTPSendCount incrementOTPSendCount setLock checkLock
    setCooldown checkCooldown getCooldownRemaining cleanup setPasswordResetVerified
    checkPasswordResetVerified setRegistrationData getRegistrationData
    deleteRegistrationData sendEmail findUserByEmail findUserById insertUser
    findValidRefresh findRefreshByHash storeRefreshToken updatePassword
    revokeRefreshTokens checkOTPRateLimit sendVerificationOtp
    checkPasswordResetRateLimit sendPasswordResetOtp register verifyOTP resendOTP login
    forgotPassword verifyForgetPasswordOTP resendPasswordResetOTP resetPassword
    refreshToken logout].

(** Follow the skeleton; [close] discharges the state updates. *)
Ltac keep refl trans close :=
  repeat match goal with
  | |- keeps _ (bind _ _) => apply (keeps_bind _ trans); [|intro]
  | |- keeps _ (ret _) => apply (keeps_ret _ refl)
  | |- keeps _ (throw _ _) => apply (keeps_throw _ refl)
  | |- keeps _ (gets _) => apply (keeps_gets _ refl)
  | |- keeps _ (modify _) => apply keeps_modify; intro; close
  | |- keeps _ (match ?x with _ => _ end) => destruct x
  | |- keeps _ (if ?b then _ else _) => destruct b
  end.

Ltac close_emails :=
  first [ reflexivity
        | unfold same_emails, emails; cbn [users set_users];
          rewrite map_map; apply map_ext; intro;
          match goal with |- context [if ?b then _ else _] => destruct b end; reflexivity ].

Ltac close_wf :=
  let H := fresh "H" in let e := fresh "e" in let d := fresh "d" in
  let x := fresh "exp" in let E := fresh "E" in let Hr := fresh "Hr" in
  intros H e d x Hr; cbn [regs set_regs set_vault set_users set_refresh set_outbox] in Hr;
  first [ exact (H e d x Hr)
        | destruct (String.eqb e _) eqn:E;
          [ first [ discriminate | injection Hr as <- _; apply String.eqb_eq in E; exact (eq_sym E) ]
          | exact (H e d x Hr) ] ].

(** Restate [P w (snd (m w))] for an arbitrary [w] as [keeps P m]. *)
Ltac to_keeps :=
  match goal with
  | w : World |- ?P ?w (snd (?m ?w)) => revert w; change (keeps P m)
  end.

Lemma exec_same_emails {env : AuthEnv} op w :
  (forall e c now id, op <> OpVerifyOTP e c now id) -> same_emails w (exec op w).
Proof.
  intros Hop. destruct op; [| exfalso; eapply Hop; reflexivity | ..];
    cbn [exec]; to_keeps; unfold_calls;
    keep same_emails_refl same_emails_trans close_emails.
Qed.

Lemma exec_wf {env : AuthEnv} op w : keeps_wf w (exec op w).
Proof.
  destruct op; cbn [exec]; to_keeps; unfold_calls;
    keep keeps_wf_refl keeps_wf_trans close_wf.
Qed.

Lemma find_none_existsb {A} (f : A -> bool) (l : list A) :
  find f l = None <-> existsb f l = false.
Proof.
  induction l as [|x l IH]; simpl; [tauto|].
  destruct (f x); simpl; [split; discriminate|exact IH].
Qed.

(** The only way [verifyOTP] changes the user store. *)
Lemma verifyOTP_users e c now id w :
  users (snd (verifyOTP e c now id w)) = users w \/
  exists d exp,
    ks_failCount (vault w e otp) < 5 /\ ks_otp (vault w e otp) = Some c /\
    c <> EmptyString /\ regs w e = Some (d, exp) /\ now < exp /\
    has_email e (users w) = false /\
    users (snd (verifyOTP e c now id w)) =
      users w ++ [mkUser id (rd_name d) (rd_email d) (Some (rd_password_hash d)) (rd_role d)
                         (rd_phone_number d) (rd_profile_image_url d) true].
Proof.
  run. zcase; [left; reflexivity|]. reduce.
  destruct (ks_otp (vault w e otp)) as [s|] eqn:Ho; [|left; reflexivity].
  unfold truthy. destruct (String.eqb_spec s EmptyString) as [Hs|Hs]; [left; reflexivity|].
  cbn [negb]. destruct (String.eqb_spec c s) as [<-|Hc]; cbn [negb].
  - destruct (regs w e) as [[d exp]|] eqn:Hr; [|left; reflexivity].
    zcase; [|left; reflexivity].
    destruct (find _ (users w)) as [u|] eqn:Hu; [left; reflexivity|].
    right. exists d, exp. repeat split; try assumption; try lia.
    apply find_none_existsb in Hu. exact Hu.
  - left. zcase; reflexivity.
Qed.

Lemma has_email_emails e w :
  has_email e (users w) = existsb (fun s => String.eqb s e) (emails w).
Proof. unfold has_email, emails. induction (users w) as [|u l IH]; simpl; congruence. Qed.

(** C5.  Over any request [op] on a world whose pending registrations are
    each stored under their own email (a property every request preserves):
    an email absent from the user store appears in it only through
    [verifyOTP] for that email, presented with the OTP stored for it (with
    fewer than five failures) while its pending registration is unexpired;
    [register] for an email already in the store throws CONFLICT and changes
    nothing; [verifyOTP] for such an email adds no row; and [verifyOTP] for
    an email whose pending registration has expired adds no row. *)
Theorem registration_needs_otp {env : AuthEnv} (op : Op) (w : World) (e : string) :
  reg_wf w ->
  reg_wf (exec op w) /\
  (has_email e (users w) = false -> has_email e (users (exec op w)) = true ->
     exists c now id d exp,
       op = OpVerifyOTP e c now id /\
       ks_failCount (vault w e otp) < 5 /\ ks_otp (vault w e otp) = Some c /\
       c <> EmptyString /\ regs w e = Some (d, exp) /\ now < exp) /\
  (has_email e (users w) = true -> forall name password role phone image now rnd,
     register name e password role phone image now rnd w =
       (Err (mkTRPCError CONFLICT "User already exists"), w)) /\
  (has_email e (users w) = true -> forall c now id,
     users (snd (verifyOTP e c now id w)) = users w) /\
  (forall d exp c now id, regs w e = Some (d, exp) -> exp <= now ->
     users (snd (verifyOTP e c now id w)) = users w).
Proof.
  intros Hwf. split; [exact (exec_wf op w Hwf)|]. split; [|split; [|split]].
  - intros Hno Hyes.
    destruct op as [| e' c now id | | | | | | | |];
      try (exfalso;
           match goal with
           | H : has_email _ (users (exec ?o w)) = true |- _ =>
               assert (Hs : same_emails w (exec o w))
                 by (apply exec_same_emails; intros; discriminate)
           end;
           unfold same_emails in Hs; rewrite has_email_emails in Hno, Hyes;
           rewrite Hs in Hyes; congruence).
    cbn [exec] in Hyes.
    destruct (verifyOTP_users e' c now id w) as [Hu|[d [exp [Hf [Ho [Hc [Hr [Hn [Hh Hu]]]]]]]]].
    + rewrite Hu in Hyes. congruence.
    + unfold has_email in Hno, Hyes. rewrite Hu, existsb_app, Hno in Hyes. simpl in Hyes.
      rewrite orb_false_r in Hyes. apply String.eqb_eq in Hyes.
      assert (He : e' = e) by (rewrite <- (Hwf e' d exp Hr); exact Hyes). subst e'.
      exists c, now, id, d, exp. repeat split; assumption.
  - intros Hyes name password role phone image now rnd. run.
    destruct (find _ (users w)) as [u|] eqn:Hf; [reflexivity|].
    apply find_none_existsb in Hf. unfold has_email in Hyes. congruence.
  - intros Hyes c now id.
    destruct (verifyOTP_users e c now id w) as [Hu|[d [exp [_ [_ [_ [_ [_ [Hn _]]]]]]]]];
      [exact Hu|congruence].
  - intros d exp c now id Hr Hexp.
    destruct (verifyOTP_users e c now id w) as [Hu|[d' [exp' [_ [_ [_ [Hr' [Hn _]]]]]]]];
      [exact Hu|].
    rewrite Hr in Hr'. injection Hr' as <- <-. lia.
Qed.

Section Witnesses5.
#[local] Existing Instance demoEnv.

Lemma registration_needs_otp_witness :
  (reg_wf registeredWorld /\
   has_email "a@x.com" (users registeredWorld) = false /\
   has_email "a@x.com"
     (users (exec (OpVerifyOTP "a@x.com" "111111" 1000 "id1") registeredWorld)) = true /\
   exists c now id d exp,
     OpVerifyOTP "a@x.com" "111111" 1000 "id1" = OpVerifyOTP "a@x.com" c now id /\
     ks_failCount (vault registeredWorld "a@x.com" otp) < 5 /\
     ks_otp (vault registeredWorld "a@x.com" otp) = Some c /\
     c <> EmptyString /\ regs registeredWorld "a@x.com" = Some (d, exp) /\ now < exp)%string.
Proof.
  assert (Hwf : reg_wf registeredWorld).
  { apply (exec_wf (OpRegister "Ann" "a@x.com" "Pw1!Pw1!" "USER" None None 0 11111)
             emptyWorld)%string.
    intros e d exp H. discriminate H. }
  split; [exact Hwf|]. split; [vm_compute; reflexivity|]. split; [vm_compute; reflexivity|].
  apply (proj1 (proj2 (registration_needs_otp (OpVerifyOTP "a@x.com" "111111" 1000 "id1")
                         registeredWorld "a@x.com" Hwf)))%string;
    vm_compute; reflexivity.
Defined.

End Witnesses5.

(** ** Further properties of the code *)

(** *** The token tables of auth-utils *)

(** X2.  Revoking the same user (and family) twice gives the same result and
    world as revoking once. *)
Theorem revokeRefreshTokens_idempotent {env : AuthEnv} userId familyId w :
  revokeRefreshTokens userId familyId (snd (revokeRefreshTokens userId familyId w)) =
  revokeRefreshTokens userId familyId w.
Proof.
  rewrite !revokeRefreshTokens_run. cbn. f_equal. unfold set_refresh; cbn. f_equal.
  unfold revoke_map. rewrite map_map. apply map_ext. intros r.
  destruct (revokes userId familyId r) eqn:E; [|rewrite E; reflexivity].
  unfold revokes, sameFamily in *. cbn. rewrite E. reflexivity.
Qed.

Lemma find_none_intro {A} (f : A -> bool) (l : list A) :
  (forall x, In x l -> f x = false) -> find f l = None.
Proof.
  induction l as [|x l IH]; intros H; [reflexivity|]. cbn.
  rewrite (H x (or_introl eq_refl)). apply IH. intros y Hy. apply H. right. exact Hy.
Qed.

Lemma find_app_none {A} (f : A -> bool) (l1 l2 : list A) :
  find f l1 = None -> find f (l1 ++ l2) = find f l2.
Proof. induction l1 as [|x l1 IH]; cbn; [auto|]. destruct (f x); [discriminate|exact IH]. Qed.

(** X3.  Right after [storeRefreshToken] (and when the user had no row with
    this digest), [verifyRefreshToken] of the same token answers [true]
    exactly when the row has already expired at time [t]: its condition is
    [lt(expiresAt, new Date())]. *)
Theorem verifyRefreshToken_after_store {env : AuthEnv} userId token familyId now newUuid t w :
  (forall r, In r (refreshTokens w) -> rt_userId r = userId -> rt_tokenHash r <> hashToken token) ->
  fst (verifyRefreshToken token userId t
         (snd (storeRefreshToken userId token familyId now newUuid w))) =
    Ok (now + REFRESH_TOKEN_EXPIRY <? t).
Proof.
  intros Hfresh.
  assert (Hnone : forall r, In r (refreshTokens w) ->
    (String.eqb (rt_userId r) userId && String.eqb (rt_tokenHash r) (hashToken token) &&
     Bool.eqb (rt_isRevoked r) false && (rt_expiresAt r <? t)) = false).
  { intros r Hr. destruct (String.eqb_spec (rt_userId r) userId) as [Hu|]; [|reflexivity].
    destruct (String.eqb_spec (rt_tokenHash r) (hashToken token)) as [Hh|]; [|reflexivity].
    exfalso. exact (Hfresh r Hr Hu Hh). }
  unfold verifyRefreshToken, storeRefreshToken, bind, gets, ret, modify. cbn.
  rewrite find_app_none by (apply find_none_intro; exact Hnone).
  cbn. rewrite !String.eqb_refl. cbn. destruct (_ <? t); reflexivity.
Qed.

(** X4.  A reset token stored at [now] (fresh digest and id) is refused
    while [t <= now + 15 min], since the query asks [lt(expiresAt, new
    Date())]; after that it is accepted once, its row marked used, and any
    later verification of it answers [false]. *)
Theorem passwordResetToken_lifecycle {env : AuthEnv} userId token now newId rows t t' :
  (forall r, In r rows -> pr_userId r = userId -> pr_tokenHash r <> hashToken token) ->
  (forall r, In r rows -> pr_id r <> newId) ->
  let rows1 := storePasswordResetToken userId token now newId rows in
  (t <= now + 15 * 60 * 1000 -> verifyPasswordResetToken token userId t rows1 = (false, rows1)) /\
  (now + 15 * 60 * 1000 < t ->
     verifyPasswordResetToken token userId t rows1 =
       (true, rows ++ [mkResetRow newId userId (hashToken token) (now + 15 * 60 * 1000) true]) /\
     fst (verifyPasswordResetToken token userId t'
            (snd (verifyPasswordResetToken token userId t rows1))) = false).
Proof.
  intros Hfresh Hids. cbv zeta. change (15 * 60 * 1000) with 900000.
  assert (Hnone : forall t0, find (fun r => String.eqb (pr_userId r) userId &&
             String.eqb (pr_tokenHash r) (hashToken token) && Bool.eqb (pr_used r) false &&
             (pr_expiresAt r <? t0)) rows = None).
  { intros t0. apply find_none_intro. intros r Hr.
    destruct (String.eqb_spec (pr_userId r) userId) as [Hu|]; [|reflexivity].
    destruct (String.eqb_spec (pr_tokenHash r) (hashToken token)) as [Hh|]; [|reflexivity].
    exfalso. exact (Hfresh r Hr Hu Hh). }
  unfold verifyPasswordResetToken, storePasswordResetToken.
  rewrite find_app_none by apply Hnone. cbn. rewrite !String.eqb_refl. cbn.
  split.
  - intros Ht. destruct (Z.ltb_spec (now + 900000) t); [lia|reflexivity].
  - intros Ht. destruct (Z.ltb_spec (now + 900000) t); [|lia].
    assert (Hmap : map (fun r' => if String.eqb (pr_id r') newId then mark_used r' else r')
                     (rows ++ [mkResetRow newId userId (hashToken token) (now + 900000) false])
                   = rows ++ [mkResetRow newId userId (hashToken token) (now + 900000) true]).
    { rewrite map_app. cbn. rewrite String.eqb_refl. f_equal.
      rewrite <- (map_id rows) at 2. apply map_ext_in. intros r Hr.
      destruct (String.eqb_spec (pr_id r) newId); [exfalso; exact (Hids r Hr e)|reflexivity]. }
    cbn [pr_id]. rewrite Hmap. split; [reflexivity|]. cbn.
    rewrite find_app_none by apply Hnone. cbn. rewrite !String.eqb_refl. reflexivity.
Qed.

(** *** login *)

(** X7.  For an unknown email, [login] answers exactly as for a known
    verified user with a wrong password: same error, same world. *)
Theorem login_unknown_email_as_wrong_password {env : AuthEnv}
  email email' password password' now tok uuid w user h :
  find (fun u => String.eqb (u_email u) email) (users w) = None ->
  find (fun u => String.eqb (u_email u) email') (users w) = Some user ->
  u_is_verified user = true -> u_password_hash user = Some h ->
  verifyPassword password' h = false ->
  login email password now tok uuid w = login email' password' now tok uuid w.
Proof.
  intros H1 H2 Hv Hh Hp. run. rewrite H1, H2, Hv, Hh, Hp. reflexivity.
Qed.

(** *** OTP format *)

Lemma length_list_ascii_of_string s : length (list_ascii_of_string s) = String.length s.
Proof. induction s as [|a s IH]; cbn; congruence. Qed.

Lemma pow10_succ k : 10 ^ Z.of_nat (S k) = 10 * 10 ^ Z.of_nat k.
Proof. rewrite Nat2Z.inj_succ, Z.pow_succ_r by lia. reflexivity. Qed.

Lemma pow10_pos k : 1 <= 10 ^ Z.of_nat k.
Proof. induction k as [|k IH]; [reflexivity|]. rewrite pow10_succ. lia. Qed.

Lemma digit_char_is_digit n :
  is_digit (ascii_of_nat (48 + Z.to_nat (n mod 10))) = true.
Proof.
  assert (Hm : 0 <= n mod 10 < 10) by (apply Z.mod_pos_bound; lia).
  assert (Hk : (Z.to_nat (n mod 10) < 10)%nat) by lia.
  unfold is_digit. rewrite nat_ascii_embedding by lia.
  apply andb_true_iff. split; apply Nat.leb_le; lia.
Qed.

(** [digits_aux] writes exactly [k + 1] digits for a [k + 1]-digit number,
    in front of the accumulator. *)
Lemma digits_aux_shape k : forall fuel n acc,
  (k < fuel)%nat -> 10 ^ Z.of_nat k <= n < 10 ^ Z.of_nat (S k) ->
  exists d, list_ascii_of_string (digits_aux fuel n acc) = d ++ list_ascii_of_string acc /\
            length d = S k /\ forallb is_digit d = true.
Proof.
  induction k as [|k IH]; intros fuel n acc Hf Hn; destruct fuel as [|f]; try lia; cbn [digits_aux].
  - cbn in Hn. destruct (Z.ltb_spec n 10); [|lia].
    eexists [_]. split; [reflexivity|]. split; [reflexivity|].
    cbn [forallb]. rewrite digit_char_is_digit. reflexivity.
  - assert (E1 : 10 ^ Z.of_nat (S k) = 10 * 10 ^ Z.of_nat k) by apply pow10_succ.
    assert (E2 : 10 ^ Z.of_nat (S (S k)) = 10 * (10 * 10 ^ Z.of_nat k))
      by (rewrite pow10_succ, E1; reflexivity).
    rewrite E1, E2 in Hn. pose proof (pow10_pos k) as Hp.
    destruct (Z.ltb_spec n 10); [lia|].
    destruct (IH f (n / 10) (String (ascii_of_nat (48 + Z.to_nat (n mod 10))) acc))
      as [d [Hd [Hl Hdig]]]; [lia| |].
    + rewrite E1. split.
      * apply Z.div_le_lower_bound; lia.
      * apply Z.div_lt_upper_bound; lia.
    + exists (d ++ [ascii_of_nat (48 + Z.to_nat (n mod 10))]). rewrite Hd, <- app_assoc.
      split; [reflexivity|]. rewrite length_app, Hl. split; [cbn [length]; lia|].
      rewrite forallb_app, Hdig. cbn [forallb andb]. rewrite digit_char_is_digit. reflexivity.
Qed.

Lemma generateOTP_valid (randomNumber : Z) : isValidOTP (generateOTP randomNumber) = true.
Proof.
  unfold isValidOTP, generateOTP, toString.
  pose proof (otp_number_range randomNumber) as Hr.
  destruct (Z.ltb_spec (otp_number randomNumber) 0); [lia|].
  destruct (digits_aux_shape 5 20 (otp_number randomNumber) EmptyString) as [d [Hd [Hl Hdig]]];
    [lia|cbn; lia|].
  rewrite <- length_list_ascii_of_string, Hd. cbn. rewrite app_nil_r, Hl, Hdig. reflexivity.
Qed.

(** X8.  Every OTP produced by [generateOTP] passes [isValidOTP]: it is six
    ASCII digits. *)
Theorem generateOTP_isValidOTP (randomNumber : Z) : isValidOTP (generateOTP randomNumber) = true.
Proof. exact (generateOTP_valid randomNumber). Qed.

(** *** Vault keys of one purpose *)

Lemma vault_keeps_refl p w : vault_keeps p w w.
Proof. intros e. reflexivity. Qed.

Lemma vault_keeps_trans p w1 w2 w3 : vault_keeps p w1 w2 -> vault_keeps p w2 w3 -> vault_keeps p w1 w3.
Proof. unfold vault_keeps. intros H1 H2 e. rewrite H2. apply H1. Qed.

Ltac close_vault :=
  let e := fresh "e" in
  unfold vault_keeps; intro e; cbn [vault set_vault set_regs set_users set_refresh set_outbox];
  first [ reflexivity | unfold upd_key; cbn [purpose_eqb]; rewrite andb_false_r; reflexivity ].

Ltac vault_iso p :=
  match goal with
  | |- vault (snd (?m ?w)) ?e p = vault ?w ?e p =>
      let H := fresh "H" in
      assert (H : keeps (vault_keeps p) m)
        by (unfold_calls; keep (vault_keeps_refl p) (vault_keeps_trans p) close_vault);
      exact (H w e)
  end.

(** X9.  Requests of the registration flow never change the Redis entries of
    the password-reset purpose, requests of the reset flow never change
    those of the verification purpose, and login, refresh and logout change
    neither. *)
Theorem vault_purpose_isolation {env : AuthEnv} (op : Op) (w : World) (e : string) :
  match op with
  | OpRegister _ _ _ _ _ _ _ _ | OpVerifyOTP _ _ _ _ | OpResendOTP _ _ _ =>
      vault (exec op w) e password_reset = vault w e password_reset
  | OpForgotPassword _ _ _ | OpVerifyForgetPasswordOTP _ _ _
  | OpResendPasswordResetOTP _ _ _ | OpResetPassword _ _ =>
      vault (exec op w) e otp = vault w e otp
  | OpLogin _ _ _ _ _ | OpRefreshToken _ _ _ _ | OpLogout _ =>
      vault (exec op w) e otp = vault w e otp /\
      vault (exec op w) e password_reset = vault w e password_reset
  end.
Proof.
  destruct op; cbn [exec];
    first [ split; [vault_iso otp | vault_iso password_reset]
          | vault_iso otp | vault_iso password_reset ].
Qed.

Lemma upd_key_other v email q f e p :
  e <> email \/ p <> q -> upd_key v email q f e p = v e p.
Proof.
  intros H. unfold upd_key.
  destruct (String.eqb_spec e email) as [->|]; [|reflexivity].
  destruct p, q; cbn; try reflexivity; destruct H as [H|H]; congruence.
Qed.


Lemma checkOTPRateLimit_ok email p now w w' :
  checkOTPRateLimit email p now w = (Ok tt, w') ->
  not_active (ks_cooldownUntil (vault w email p)) now /\
  ks_attempts (vault w email p) < 2 /\
  not_active (ks_lockUntil (vault w email p)) now /\
  w' = set_vault w (upd_key (vault w) email p (fun k => with_attempts (ks_attempts k + 1) k)).
Proof.
  run. unfold not_active.
  destruct (ks_cooldownUntil (vault w email p)) as [c|];
    [destruct (Z.ltb_spec now c); [discriminate|]|].
  all: destruct (Z.leb_spec 2 (ks_attempts (vault w email p))); [discriminate|].
  all: destruct (ks_lockUntil (vault w email p)) as [l|];
    [destruct (Z.ltb_spec now l); [discriminate|]|].
  all: intros Hrun; injection Hrun as <-; repeat split; auto; lia.
Qed.

Lemma checkPasswordResetRateLimit_is email now :
  checkPasswordResetRateLimit email now = checkOTPRateLimit email password_reset now.
Proof. reflexivity. Qed.

Lemma sendVerificationOtp_effect email now randomNumber w res w' :
  sendVerificationOtp email now randomNumber w = (Ok res, w') ->
  let k := vault w email otp in
  not_active (ks_cooldownUntil k) now /\ ks_attempts k < 2 /\ not_active (ks_lockUntil k) now /\
  vault w' email otp =
    mkKey (Some (generateOTP randomNumber)) (ks_failCount k) (ks_attempts k + 1)
          (ks_sendCount k) (Some (now + OTP_COOLDOWN)) (ks_lockUntil k) (ks_verified k) /\
  (forall e p, e <> email \/ p <> otp -> vault w' e p = vault w e p) /\
  outbox w' = outbox w ++ [(email, generateOTP randomNumber)] /\
  users w' = users w /\ regs w' = regs w /\ refreshTokens w' = refreshTokens w.
Proof.
  unfold sendVerificationOtp, bind at 1 2, getRegistrationData, findUserByEmail, gets.
  destruct (match regs w email with Some (d, exp) => _ | None => None end) as [d|];
    destruct (find _ (users w)) as [u|];
    try (intros H; discriminate H);
    try (destruct (u_is_verified u); [intros H; discriminate H|]);
    cbn [negb]; unfold bind at 1;
    destruct (checkOTPRateLimit email otp now w) as [[[]|err] w1] eqn:Hc;
    try (intros H; discriminate H);
    apply checkOTPRateLimit_ok in Hc as [Hcd [Ha [Hl ->]]];
    unfold bind, setOTP, setCooldown, sendEmail, updateKey, modify, ret;
    intros H; injection H as _ <-; cbn -[generateOTP upd_key];
    (split; [exact Hcd|]; split; [exact Ha|]; split; [exact Hl|]);
    (split; [rewrite !upd_key_same; reflexivity|]);
    (split; [intros e p Hne; rewrite !upd_key_other by exact Hne; reflexivity|]);
    repeat split.
Qed.

Lemma sendPasswordResetOtp_effect email now randomNumber w res w' :
  sendPasswordResetOtp email now randomNumber w = (Ok res, w') ->
  let k := vault w email password_reset in
  (exists u, find (fun u => String.eqb (u_email u) email) (users w) = Some u) /\
  not_active (ks_cooldownUntil k) now /\ ks_attempts k < 2 /\ not_active (ks_lockUntil k) now /\
  vault w' email password_reset =
    mkKey (Some (generateOTP randomNumber)) (ks_failCount k) (ks_attempts k + 1)
          (ks_sendCount k) (Some (now + OTP_COOLDOWN)) (ks_lockUntil k) (ks_verified k) /\
  (forall e p, e <> email \/ p <> password_reset -> vault w' e p = vault w e p) /\
  outbox w' = outbox w ++ [(email, generateOTP randomNumber)] /\
  users w' = users w /\ regs w' = regs w /\ refreshTokens w' = refreshTokens w.
Proof.
  unfold sendPasswordResetOtp, bind at 1, findUserByEmail, gets.
  destruct (find _ (users w)) as [u|] eqn:Hu; [|intros H; discriminate H].
  unfold bind at 1. rewrite checkPasswordResetRateLimit_is.
  destruct (checkOTPRateLimit email password_reset now w) as [[[]|err] w1] eqn:Hc;
    [|intros H; discriminate H].
  apply checkOTPRateLimit_ok in Hc as [Hcd [Ha [Hl ->]]].
  unfold bind, setPasswordResetOTP, setCooldown, sendEmail, updateKey, modify, ret.
  intros H; injection H as _ <-; cbn -[generateOTP upd_key].
  split; [exists u; reflexivity|].
  split; [exact Hcd|]; split; [exact Ha|]; split; [exact Hl|].
  split; [rewrite !upd_key_same; reflexivity|].
  split; [intros e p Hne; rewrite !upd_key_other by exact Hne; reflexivity|].
  repeat split.
Qed.

(** X10.  When [sendVerificationOtp] succeeds, the rate limit had passed
    (no active cooldown or lock, fewer than 2 attempts), the key of this email
    holds the new OTP with one more attempt and a 60-second cooldown, no other
    key changed, and one email with the OTP was sent. *)
Theorem sendVerificationOtp_success email now randomNumber w res w' :
  sendVerificationOtp email now randomNumber w = (Ok res, w') ->
  let k := vault w email otp in
  not_active (ks_cooldownUntil k) now /\ ks_attempts k < 2 /\ not_active (ks_lockUntil k) now /\
  vault w' email otp =
    mkKey (Some (generateOTP randomNumber)) (ks_failCount k) (ks_attempts k + 1)
          (ks_sendCount k) (Some (now + OTP_COOLDOWN)) (ks_lockUntil k) (ks_verified k) /\
  (forall e p, e <> email \/ p <> otp -> vault w' e p = vault w e p) /\
  outbox w' = outbox w ++ [(email, generateOTP randomNumber)] /\
  users w' = users w /\ regs w' = regs w /\ refreshTokens w' = refreshTokens w.
Proof. exact (sendVerificationOtp_effect email now randomNumber w res w'). Qed.

(** X11.  When [sendPasswordResetOtp] succeeds, the email belongs to a user,
    the rate limit had passed, the reset key holds the new OTP with one more
    attempt and a 60-second cooldown, no other key changed, and one email
    with the OTP was sent. *)
Theorem sendPasswordResetOtp_success email now randomNumber w res w' :
  sendPasswordResetOtp email now randomNumber w = (Ok res, w') ->
  let k := vault w email password_reset in
  (exists u, find (fun u => String.eqb (u_email u) email) (users w) = Some u) /\
  not_active (ks_cooldownUntil k) now /\ ks_attempts k < 2 /\ not_active (ks_lockUntil k) now /\
  vault w' email password_reset =
    mkKey (Some (generateOTP randomNumber)) (ks_failCount k) (ks_attempts k + 1)
          (ks_sendCount k) (Some (now + OTP_COOLDOWN)) (ks_lockUntil k) (ks_verified k) /\
  (forall e p, e <> email \/ p <> password_reset -> vault w' e p = vault w e p) /\
  outbox w' = outbox w ++ [(email, generateOTP randomNumber)] /\
  users w' = users w /\ regs w' = regs w /\ refreshTokens w' = refreshTokens w.
Proof. exact (sendPasswordResetOtp_effect email now randomNumber w res w'). Qed.

Lemma str_app_assoc (a b c : string) : ((a ++ b) ++ c = a ++ (b ++ c))%string.
Proof. induction a as [|x a IH]; cbn; congruence. Qed.

Lemma str_app_nil_r (a : string) : (a ++ EmptyString)%string = a.
Proof. induction a as [|x a IH]; cbn; congruence. Qed.

Lemma split_aux_lacks c s cur :
  lacks c s = true -> split_aux c s cur = [(cur ++ s)%string].
Proof.
  revert cur. induction s as [|x s IH]; intros cur H; cbn.
  - rewrite str_app_nil_r. reflexivity.
  - unfold lacks in H. cbn in H. apply andb_true_iff in H as [Hx Hs].
    apply negb_true_iff in Hx. rewrite Hx, IH by exact Hs.
    rewrite str_app_assoc. reflexivity.
Qed.

Lemma split_aux_app c s1 s2 cur :
  lacks c s1 = true ->
  split_aux c (s1 ++ String c s2) cur = (cur ++ s1)%string :: split_aux c s2 EmptyString.
Proof.
  revert cur. induction s1 as [|x s1 IH]; intros cur H; cbn.
  - rewrite Ascii.eqb_refl, str_app_nil_r. reflexivity.
  - unfold lacks in H. cbn in H. apply andb_true_iff in H as [Hx Hs].
    apply negb_true_iff in Hx. rewrite Hx, IH by exact Hs.
    rewrite str_app_assoc. reflexivity.
Qed.

Lemma split_concat l : forall x cur,
  lacks ";" x = true -> Forall (fun c => lacks ";" c = true) l ->
  split_aux ";" (String.concat "; " (x :: l)) cur =
    (cur ++ x)%string :: map (String " ") l.
Proof.
  induction l as [|y l IH]; intros x cur Hx Hl.
  - cbn [String.concat]. rewrite split_aux_lacks by exact Hx. reflexivity.
  - inversion Hl as [|? ? Hy Hl']; subst.
    change (String.concat "; " (x :: y :: l))
      with (x ++ String ";" (String " " (String.concat "; " (y :: l))))%string.
    rewrite split_aux_app by exact Hx. cbn [split_aux Ascii.eqb Bool.eqb].
    change (EmptyString ++ String " " EmptyString)%string with (String " " EmptyString).
    rewrite (IH y (String " " EmptyString) Hy Hl'). reflexivity.
Qed.

Lemma find_map_comm {A B} (p : B -> bool) (q : A -> bool) (f : A -> B) (l : list A) :
  (forall x, p (f x) = q x) -> find p (map f l) = option_map f (find q l).
Proof.
  intros Hp. induction l as [|x l IH]; [reflexivity|]. cbn. rewrite Hp.
  destruct (q x); [reflexivity|exact IH].
Qed.

Lemma drop_ws_id l : Forall (fun a => is_ws a = false) l -> drop_ws l = l.
Proof. intros H. destruct H as [|a l Ha _]; cbn; [reflexivity|]. rewrite Ha. reflexivity. Qed.

Lemma trim_id s :
  Forall (fun a => is_ws a = false) (list_ascii_of_string s) -> trim s = s.
Proof.
  intros H. unfold trim. rewrite (drop_ws_id (list_ascii_of_string s) H).
  rewrite (drop_ws_id (rev (list_ascii_of_string s)) (Forall_rev H)).
  rewrite rev_involutive. apply string_of_list_ascii_of_string.
Qed.

Lemma prefix_app s t : String.prefix s (s ++ t) = true.
Proof.
  induction s as [|a s IH]; [destruct t; reflexivity|]. cbn.
  destruct (ascii_dec a a) as [_|n]; [exact IH|congruence].
Qed.

Lemma hex_digit_token n : 0 <= n < 16 -> token_char (hex_digit n) = true.
Proof.
  intros H. rewrite <- (Z2Nat.id n) by lia.
  assert (Hk : (Z.to_nat n < 16)%nat) by lia. revert Hk.
  generalize (Z.to_nat n) as k. intros k Hk.
  do 16 (destruct k as [|k]; [reflexivity|]). lia.
Qed.

Lemma toHex_token bytes :
  Forall (fun b => 0 <= b < 256) bytes ->
  forallb token_char (list_ascii_of_string (toHex bytes)) = true.
Proof.
  induction 1 as [|b bytes Hb _ IH]; [reflexivity|]. cbn [toHex fold_right].
  change (list_ascii_of_string (String ?a (String ?b ?s)))
    with (a :: b :: list_ascii_of_string s).
  cbn [forallb]. rewrite hex_digit_token, hex_digit_token.
  - exact IH.
  - apply Z.mod_pos_bound. lia.
  - split; [apply Z.div_pos; lia | apply Z.div_lt_upper_bound; lia].
Qed.

Lemma forallb_weaken {A} (f g : A -> bool) (l : list A) :
  (forall a, f a = true -> g a = true) -> forallb f l = true -> forallb g l = true.
Proof.
  intros Hfg. induction l as [|a l IH]; [reflexivity|]. cbn.
  intros H. apply andb_true_iff in H as [Ha Hl]. rewrite (Hfg a Ha), (IH Hl). reflexivity.
Qed.

Lemma token_facts s :
  forallb token_char (list_ascii_of_string s) = true ->
  lacks ";" s = true /\ lacks "=" s = true /\
  Forall (fun a => is_ws a = false) (list_ascii_of_string s).
Proof.
  intros H. unfold lacks. split; [|split].
  - revert H. apply forallb_weaken. intros a Ha. unfold token_char in Ha.
    apply andb_true_iff in Ha as [Ha _]. apply andb_true_iff in Ha as [_ Ha]. exact Ha.
  - revert H. apply forallb_weaken. intros a Ha. unfold token_char in Ha.
    apply andb_true_iff in Ha as [_ Ha]. exact Ha.
  - apply Forall_forall. intros a Ha. eapply forallb_forall in H; [|exact Ha].
    unfold token_char in H. apply andb_true_iff in H as [H _]. apply andb_true_iff in H as [H _].
    apply negb_true_iff in H. exact H.
Qed.

Lemma cookieValue_token cur tok :
  lacks "=" tok = true ->
  nth 1 (split_aux "=" ("refreshToken=" ++ tok) cur) EmptyString = tok.
Proof.
  intros H. change ("refreshToken=" ++ tok)%string with ("refreshToken" ++ String "=" tok)%string.
  rewrite split_aux_app by reflexivity. rewrite split_aux_lacks by exact H. reflexivity.
Qed.

(** X14.  A cookie [refreshToken=<generateRefreshToken()>] placed among
    other cookies that have no [;] and are not refresh cookies is found by
    the router's cookie parsing, which yields exactly the token. *)
Theorem refresh_cookie_round_trip randomBytes others more :
  Forall (fun b => 0 <= b < 256) randomBytes ->
  Forall (fun c => lacks ";" c = true /\ startsWith (trim c) "refreshToken=" = false) others ->
  Forall (fun c => lacks ";" c = true) more ->
  let token := generateRefreshToken randomBytes in
  option_map cookieValue
    (findRefreshTokenCookie (cookieHeader (Some (String.concat "; "
       (others ++ ("refreshToken=" ++ token)%string :: more))))) = Some token.
Proof.
  intros Hb Ho Hm. cbv zeta.
  destruct (token_facts _ (toHex_token _ Hb)) as [Hsc [Heq Hws]].
  unfold generateRefreshToken.
  set (tok := toHex randomBytes) in *.
  set (ck := ("refreshToken=" ++ tok)%string).
  assert (Hck : lacks ";" ck = true) by exact Hsc.
  assert (Hpk : startsWith (trim ck) "refreshToken=" = true).
  { rewrite trim_id; [apply prefix_app|].
    unfold ck. cbn [list_ascii_of_string append].
    repeat (apply Forall_cons; [reflexivity|]). exact Hws. }
  unfold cookieHeader, findRefreshTokenCookie, split.
  destruct others as [|o os]; cbn [app].
  - rewrite split_concat by assumption. change (EmptyString ++ ck)%string with ck.
    cbn [find]. rewrite Hpk.
    cbn [option_map]. unfold cookieValue, split. f_equal. apply cookieValue_token. exact Heq.
  - inversion Ho as [|? ? [Hosc Hop] Hos]; subst.
    rewrite split_concat.
    + change (EmptyString ++ o)%string with o. cbn [find]. rewrite Hop.
      rewrite (find_map_comm _ (fun c => startsWith (trim c) "refreshToken=") (String " "))
        by (intros x; reflexivity).
      rewrite find_app_none.
      * cbn [find]. rewrite Hpk. cbn [option_map]. unfold cookieValue, split.
        cbn [split_aux Ascii.eqb Bool.eqb]. f_equal. apply cookieValue_token. exact Heq.
      * apply find_none_intro. intros x Hx. rewrite Forall_forall in Hos.
        apply (Hos x Hx).
    + exact Hosc.
    + apply Forall_app. split.
      * revert Hos. apply Forall_impl. intros x [Hx _]. exact Hx.
      * constructor; [exact Hck|exact Hm].
Qed.

Lemma list_ascii_app s t :
  list_ascii_of_string (s ++ t) = list_ascii_of_string s ++ list_ascii_of_string t.
Proof. induction s as [|a s IH]; cbn; congruence. Qed.

Lemma single_cookie c :
  lacks ";" c = true -> forallb (fun a => negb (is_ws a)) (list_ascii_of_string c) = true ->
  startsWith c "refreshToken=" = true -> findRefreshTokenCookie c = Some c.
Proof.
  intros Hs Hw Hp. unfold findRefreshTokenCookie, split.
  rewrite split_aux_lacks by exact Hs. cbn [find append].
  rewrite trim_id, Hp; [reflexivity|].
  apply Forall_forall. intros a Ha. eapply forallb_forall in Hw; [|exact Ha].
  apply negb_true_iff in Hw. exact Hw.
Qed.

(** X15.  The router reads the refresh token as [split("=")[1]], so a cookie
    value [a=b] is treated as [a]: [refreshToken] and [logout] behave the
    same on both. *)
Theorem refresh_cookie_cut_at_equals {env : AuthEnv} a b :
  lacks ";" a = true -> lacks ";" b = true -> lacks "=" a = true ->
  forallb (fun x => negb (is_ws x)) (list_ascii_of_string (a ++ b)) = true ->
  (forall now tok uuid w,
     refreshToken (Some ("refreshToken=" ++ a ++ "=" ++ b)%string) now tok uuid w =
     refreshToken (Some ("refreshToken=" ++ a)%string) now tok uuid w) /\
  (forall w, logout (Some ("refreshToken=" ++ a ++ "=" ++ b)%string) w =
             logout (Some ("refreshToken=" ++ a)%string) w).
Proof.
  intros Hsa Hsb Hea Hw.
  rewrite list_ascii_app, forallb_app in Hw. apply andb_true_iff in Hw as [Hwa Hwb].
  assert (E1 : findRefreshTokenCookie ("refreshToken=" ++ a ++ "=" ++ b)%string =
               Some ("refreshToken=" ++ a ++ "=" ++ b)%string).
  { apply single_cookie.
    - unfold lacks in *. rewrite !list_ascii_app, !forallb_app.
      cbn [list_ascii_of_string forallb]. rewrite Hsa, Hsb. reflexivity.
    - rewrite !list_ascii_app, !forallb_app.
      cbn [list_ascii_of_string forallb]. rewrite Hwa, Hwb. reflexivity.
    - apply prefix_app. }
  assert (E2 : findRefreshTokenCookie ("refreshToken=" ++ a)%string =
               Some ("refreshToken=" ++ a)%string).
  { apply single_cookie; [exact Hsa| |apply prefix_app].
    rewrite !list_ascii_app, !forallb_app. rewrite Hwa. reflexivity. }
  assert (V : cookieValue ("refreshToken=" ++ a ++ "=" ++ b)%string =
              cookieValue ("refreshToken=" ++ a)%string).
  { unfold cookieValue, split.
    change (split_aux "=" ("refreshToken=" ++ a ++ "=" ++ b) EmptyString)%string
      with (split_aux "=" ("refreshToken" ++ String "=" (a ++ String "=" b)) EmptyString)%string.
    rewrite split_aux_app by reflexivity. rewrite split_aux_app by exact Hea.
    rewrite cookieValue_token by exact Hea. reflexivity. }
  split.
  - intros now tok uuid w. unfold refreshToken, cookieHeader. rewrite E1, E2, V. reflexivity.
  - intros w. unfold logout, cookieHeader. rewrite E1, E2, V. reflexivity.
Qed.

Lemma utf8_encode_ascii s : Forall (fun u => 0 <= u < 128) s -> utf8_encode s = s.
Proof.
  induction 1 as [|u s Hu _ IH]; [reflexivity|]. cbn.
  destruct (Z.ltb_spec u 128); [|lia]. rewrite IH. reflexivity.
Qed.

(** X16.  On ASCII strings [verifyOTPSecure] never throws and returns [true]
    exactly when both strings are equal and non-empty. *)
Theorem verifyOTPSecure_ascii inputOTP storedOTP :
  Forall (fun u => 0 <= u < 128) inputOTP -> Forall (fun u => 0 <= u < 128) storedOTP ->
  (exists b, verifyOTPSecure inputOTP storedOTP = Returns b) /\
  (verifyOTPSecure inputOTP storedOTP = Returns true <->
     inputOTP = storedOTP /\ inputOTP <> []).
Proof.
  intros Ha Hb. unfold verifyOTPSecure.
  destruct inputOTP as [|x xs].
  { cbn [orb]. split; [eexists; reflexivity|]. split; [discriminate|intros [_ H]; congruence]. }
  destruct storedOTP as [|y ys].
  { cbn [orb]. split; [eexists; reflexivity|]. split; [discriminate|intros [H _]; discriminate]. }
  cbn [orb]. destruct (Nat.eqb_spec (length (x :: xs)) (length (y :: ys))) as [Hl|Hl]; cbn [negb].
  - rewrite !utf8_encode_ascii by assumption. unfold timingSafeEqual.
    rewrite Hl, Nat.eqb_refl.
    destruct (list_eq_dec Z.eq_dec (x :: xs) (y :: ys)) as [E|E].
    + split; [eexists; reflexivity|]. split; [intros _; split; [exact E|discriminate]|reflexivity].
    + split; [eexists; reflexivity|]. split; [discriminate|intros [H _]; contradiction].
  - split; [eexists; reflexivity|]. split; [discriminate|]. intros [H _]. rewrite H in Hl. contradiction.
Qed.

(** X17.  Two different lone UTF-16 surrogates are both encoded as U+FFFD,
    so [verifyOTPSecure] accepts one for the other. *)
Theorem verifyOTPSecure_lone_surrogates u v :
  55296 <= u <= 57343 -> 55296 <= v <= 57343 -> verifyOTPSecure [u] [v] = Returns true.
Proof.
  intros Hu Hv. unfold verifyOTPSecure. cbn [orb length Nat.eqb negb].
  assert (E : forall w, 55296 <= w <= 57343 -> utf8_encode [w] = replacement_bytes).
  { intros w Hw. cbn. destruct (Z.ltb_spec w 128); [lia|]. destruct (Z.ltb_spec w 2048); [lia|].
    unfold is_high_surrogate, is_low_surrogate.
    destruct (Z.leb_spec 55296 w); [|lia]. destruct (Z.leb_spec w 56319); cbn [andb].
    - reflexivity.
    - destruct (Z.leb_spec 56320 w); [|lia]. destruct (Z.leb_spec w 57343); [|lia].
      reflexivity. }
  rewrite (E u Hu), (E v Hv). reflexivity.
Qed.

(** Every non-ASCII code unit adds at least one byte. *)

Lemma utf8_encode_length n : forall s, (length s <= n)%nat ->
  (length s + non_ascii_count s <= length (utf8_encode s))%nat.
Proof.
  induction n as [|n IH]; intros s Hs.
  { destruct s; [cbn; lia|cbn in Hs; lia]. }
  destruct s as [|u rest]; [cbn; lia|]. cbn in Hs.
  unfold non_ascii_count in *. cbn [utf8_encode filter length].
  destruct (Z.ltb_spec u 128); cbn [negb length].
  { specialize (IH rest ltac:(lia)). lia. }
  destruct (Z.ltb_spec u 2048); cbn [length].
  { specialize (IH rest ltac:(lia)). lia. }
  destruct (is_high_surrogate u).
  - destruct rest as [|v rest']; [cbn; lia|].
    destruct (is_low_surrogate v).
    + rewrite length_app. cbn [length utf8_4 filter].
      specialize (IH rest' ltac:(cbn in Hs; lia)).
      destruct (negb (v <? 128)); cbn [length]; lia.
    + rewrite length_app. cbn [length replacement_bytes].
      specialize (IH (v :: rest') ltac:(lia)). cbn [length filter] in IH |- *. lia.
  - destruct (is_low_surrogate u); rewrite length_app; cbn [length replacement_bytes utf8_3];
      specialize (IH rest ltac:(lia)); lia.
Qed.

(** X18.  An input with as many UTF-16 units as a non-empty ASCII stored OTP
    but containing a non-ASCII unit makes [verifyOTPSecure] throw
    [RangeError] from [timingSafeEqual] instead of returning [false]. *)
Theorem verifyOTPSecure_throws_on_non_ascii inputOTP storedOTP :
  Forall (fun u => 0 <= u < 128) storedOTP -> storedOTP <> [] ->
  Forall (fun u => 0 <= u < 65536) inputOTP -> length inputOTP = length storedOTP ->
  Exists (fun u => 128 <= u) inputOTP ->
  verifyOTPSecure inputOTP storedOTP = Throws "Input buffers must have the same byte length".
Proof.
  intros Hs Hne _ Hl Hx. unfold verifyOTPSecure.
  destruct inputOTP as [|x xs]; [inversion Hx|].
  destruct storedOTP as [|y ys]; [congruence|].
  rewrite Hl, Nat.eqb_refl. cbn [orb negb].
  unfold timingSafeEqual. rewrite (utf8_encode_ascii (y :: ys) Hs).
  pose proof (utf8_encode_length _ (x :: xs) (le_n _)) as Hle.
  assert (Hc : (1 <= non_ascii_count (x :: xs))%nat).
  { unfold non_ascii_count. apply Exists_exists in Hx as [u [Hu Hu']].
    destruct (filter _ (x :: xs)) eqn:Ef; [|cbn; lia].
    assert (In u (filter (fun u => negb (u <? 128)) (x :: xs))).
    { apply filter_In. split; [exact Hu|]. destruct (Z.ltb_spec u 128); [lia|reflexivity]. }
    rewrite Ef in H. contradiction. }
  destruct (Nat.eqb_spec (length (utf8_encode (x :: xs))) (length (y :: ys))); [lia|].
  reflexivity.
Qed.

(** *** Witnesses of the properties above *)

Section ExtraWitnesses.
#[local] Existing Instance demoEnv.

Lemma verifyRefreshToken_after_store_witness :
  fst (verifyRefreshToken "tok" "u1" 3000000
         (snd (storeRefreshToken "u1" "tok" None 0 "fam" emptyWorld))) =
    Ok (0 + REFRESH_TOKEN_EXPIRY <? 3000000).
Proof.
  apply (verifyRefreshToken_after_store "u1" "tok" None 0 "fam" 3000000 emptyWorld).
  intros r Hr. simpl in Hr. contradiction.
Defined.

Lemma passwordResetToken_lifecycle_witness :
  let rows1 := storePasswordResetToken "u1" "tok" 0 "r1" [] in
  (1000000 <= 0 + 15 * 60 * 1000 ->
     verifyPasswordResetToken "tok" "u1" 1000000 rows1 = (false, rows1)) /\
  (0 + 15 * 60 * 1000 < 1000000 ->
     verifyPasswordResetToken "tok" "u1" 1000000 rows1 =
       (true, [] ++ [mkResetRow "r1" "u1" (hashToken "tok") (0 + 15 * 60 * 1000) true]) /\
     fst (verifyPasswordResetToken "tok" "u1" 2000000
            (snd (verifyPasswordResetToken "tok" "u1" 1000000 rows1))) = false).
Proof.
  apply (passwordResetToken_lifecycle "u1" "tok" 0 "r1" [] 1000000 2000000);
    intros r Hr; simpl in Hr; contradiction.
Defined.

Lemma login_unknown_email_as_wrong_password_witness :
  login "b@x.com" "Pw1!Pw1!" 0 "t" "f" userWorld = login "a@x.com" "wrong" 0 "t" "f" userWorld.
Proof.
  apply (login_unknown_email_as_wrong_password "b@x.com" "a@x.com" "Pw1!Pw1!" "wrong" 0 "t" "f"
           userWorld demoUser "bcrypt:Pw1!Pw1!"); reflexivity.
Defined.

Lemma refresh_cookie_cut_at_equals_witness :
  (forall now tok uuid w,
     refreshToken (Some ("refreshToken=" ++ "abc" ++ "=" ++ "x")%string) now tok uuid w =
     refreshToken (Some ("refreshToken=" ++ "abc")%string) now tok uuid w) /\
  (forall w, logout (Some ("refreshToken=" ++ "abc" ++ "=" ++ "x")%string) w =
             logout (Some ("refreshToken=" ++ "abc")%string) w).
Proof.
  apply (refresh_cookie_cut_at_equals "abc" "x"); reflexivity.
Defined.

End ExtraWitnesses.

Lemma sendVerificationOtp_success_witness :
  let w := registeredWorld in
  let w' := snd (sendVerificationOtp "a@x.com" 60000 7 w) in
  let k := vault w "a@x.com" otp in
  not_active (ks_cooldownUntil k) 60000 /\ ks_attempts k < 2 /\
  not_active (ks_lockUntil k) 60000 /\
  vault w' "a@x.com" otp =
    mkKey (Some (generateOTP 7)) (ks_failCount k) (ks_attempts k + 1)
          (ks_sendCount k) (Some (60000 + OTP_COOLDOWN)) (ks_lockUntil k) (ks_verified k) /\
  (forall e p, e <> "a@x.com"%string \/ p <> otp -> vault w' e p = vault w e p) /\
  outbox w' = outbox w ++ [("a@x.com"%string, generateOTP 7)] /\
  users w' = users w /\ regs w' = regs w /\ refreshTokens w' = refreshTokens w.
Proof.
  apply (sendVerificationOtp_success "a@x.com" 60000 7 registeredWorld
           "Verification OTP sent to your email").
  vm_compute. reflexivity.
Defined.

Lemma sendPasswordResetOtp_success_witness :
  let w := userWorld in
  let w' := snd (sendPasswordResetOtp "a@x.com" 0 22222 w) in
  let k := vault w "a@x.com" password_reset in
  (exists u, find (fun u => String.eqb (u_email u) "a@x.com") (users w) = Some u) /\
  not_active (ks_cooldownUntil k) 0 /\ ks_attempts k < 2 /\ not_active (ks_lockUntil k) 0 /\
  vault w' "a@x.com" password_reset =
    mkKey (Some (generateOTP 22222)) (ks_failCount k) (ks_attempts k + 1)
          (ks_sendCount k) (Some (0 + OTP_COOLDOWN)) (ks_lockUntil k) (ks_verified k) /\
  (forall e p, e <> "a@x.com"%string \/ p <> password_reset -> vault w' e p = vault w e p) /\
  outbox w' = outbox w ++ [("a@x.com"%string, generateOTP 22222)] /\
  users w' = users w /\ regs w' = regs w /\ refreshTokens w' = refreshTokens w.
Proof.
  apply (sendPasswordResetOtp_success "a@x.com" 0 22222 userWorld
           "Password reset OTP sent to your email").
  vm_compute. reflexivity.
Defined.

Lemma refresh_cookie_round_trip_witness :
  option_map cookieValue
    (findRefreshTokenCookie (cookieHeader (Some (String.concat "; "
       (["theme=dark"%string] ++ ("refreshToken=" ++ generateRefreshToken [171; 205])%string
          :: ["lang=en"%string]))))) = Some (generateRefreshToken [171; 205]).
Proof.
  apply (refresh_cookie_round_trip [171; 205] ["theme=dark"%string] ["lang=en"%string]);
    repeat constructor; vm_compute; first [reflexivity | discriminate].
Defined.

Lemma verifyOTPSecure_ascii_witness :
  (exists b, verifyOTPSecure [49; 50; 51; 52; 53; 54] [49; 50; 51; 52; 53; 55] = Returns b) /\
  (verifyOTPSecure [49; 50; 51; 52; 53; 54] [49; 50; 51; 52; 53; 55] = Returns true <->
     [49; 50; 51; 52; 53; 54] = [49; 50; 51; 52; 53; 55] /\ [49; 50; 51; 52; 53; 54] <> []).
Proof.
  apply verifyOTPSecure_ascii; repeat constructor; vm_compute; discriminate.
Defined.

Lemma verifyOTPSecure_lone_surrogates_witness : verifyOTPSecure [55296] [57343] = Returns true.
Proof. apply verifyOTPSecure_lone_surrogates; lia. Defined.

Lemma verifyOTPSecure_throws_on_non_ascii_witness :
  verifyOTPSecure [49; 50; 51; 52; 53; 233] [49; 50; 51; 52; 53; 54] =
    Throws "Input buffers must have the same byte length".
Proof.
  apply verifyOTPSecure_throws_on_non_ascii;
    first [ repeat constructor; vm_compute; discriminate
          | discriminate | reflexivity
          | apply Exists_exists; exists 233; split; [simpl; tauto | lia] ].
Defined.

